(** * cbeast.matrix: the taxa/feature matrix and its distance matrices

    A shallow embedding of [src/cbeast/matrix.py].  Python floats are the
    primitive binary64 floats, exceptions are an error type threaded by a
    small monad, the two [OrderedDict]s are association lists kept in
    insertion order, and the ElementTree nodes are a small tree type.

    The constructor is modelled on the rows that [csv.reader] yields: one
    list of cells per line, the empty list for a blank line, and possibly an
    exception of the reader's own after them.  What the Python runtime
    computes ([str.strip], [float] of a string, [repr] of a string, [log10],
    [str] of a float) is a parameter of the model. *)

From Stdlib Require Import List String Ascii ZArith Lia Bool Arith.
From Stdlib Require Import DecimalString.
From Stdlib Require Import Floats.
Import ListNotations.

Local Open Scope string_scope.
Local Open Scope list_scope.

(** ** Exceptions and the error monad *)

(** [CsvError] is [_csv.Error], which [csv.reader] raises while it is
    iterated (on a field above the field size limit, for instance). *)

Inductive exn : Type :=
| ValueError (msg : string)
| KeyError (key : string)
| IndexError
| UnboundLocalError (name : string)
| CsvError (msg : string).

Inductive result (A : Type) : Type :=
| Ok (a : A)
| Raise (e : exn).

Arguments Ok {A} a.
Arguments Raise {A} e.

Definition bind {A B : Type} (r : result A) (k : A -> result B) : result B :=
  match r with
  | Ok a => k a
  | Raise e => Raise e
  end.

Notation "x <- r ;; k" := (bind r (fun x => k))
  (at level 61, r at next level, right associativity).

(** A left-to-right loop whose body may raise. *)
Fixpoint foldM {S X : Type} (body : S -> X -> result S) (xs : list X) (s : S)
  : result S :=
  match xs with
  | [] => Ok s
  | x :: xs' => s' <- body s x ;; foldM body xs' s'
  end.

(** A loop collecting one result per element ([result.append] in a [for]). *)
Fixpoint mapM {X Y : Type} (f : X -> result Y) (xs : list X)
  : result (list Y) :=
  match xs with
  | [] => Ok []
  | x :: xs' => y <- f x ;; ys <- mapM f xs' ;; Ok (y :: ys)
  end.

(** ** Strings: [str.strip], [%d] *)

(** [str.strip] belongs to the Python runtime: it removes the leading and
    trailing characters that [str.isspace] accepts, which in Python 3 are
    the Unicode white space characters (U+00A0 and U+3000 among them).  The
    model takes it as an interface, and no property below depends on which
    characters it removes. *)
Class StrStrip : Type := strip : string -> string.

(** ['%d' % n] for a Python integer. *)
Definition format_d (n : Z) : string := NilZero.string_of_int (Z.to_int n).

(** [len(xs)] as a Python integer. *)
Definition len {A : Type} (xs : list A) : Z := Z.of_nat (List.length xs).

(** [fields[1:]] *)
Definition slice_from_1 {A : Type} (xs : list A) : list A := tl xs.

(** [enumerate(xs, start)] *)
Fixpoint enumerate {A : Type} (xs : list A) (start : Z) : list (Z * A) :=
  match xs with
  | [] => []
  | x :: xs' => (start, x) :: enumerate xs' (start + 1)
  end.

(** [range(a, b)] over non-negative indices. *)
Definition range (a b : nat) : list nat := seq a (b - a).

(** [xs[i]] for a non-negative index. *)
Definition getitem {A : Type} (xs : list A) (i : nat) : result A :=
  match nth_error xs i with
  | Some x => Ok x
  | None => Raise IndexError
  end.

(** ** Dictionaries that remember insertion order *)

Section Dict.
Context {V : Type}.

Definition dict : Type := list (string * V).

Definition keys (d : dict) : list string := map fst d.
Definition values (d : dict) : list V := map snd d.

Fixpoint d_find (d : dict) (k : string) : option V :=
  match d with
  | [] => None
  | (k', v) :: d' => if String.eqb k' k then Some v else d_find d' k
  end.

(** [k in d] *)
Definition d_mem (d : dict) (k : string) : bool :=
  match d_find d k with Some _ => true | None => false end.

(** [d[k]], raising [KeyError] on a missing key. *)
Definition d_get (d : dict) (k : string) : result V :=
  match d_find d k with
  | Some v => Ok v
  | None => Raise (KeyError k)
  end.

(** [d[k] = v]: replaces the value of an existing key where it stands, or
    adds the key at the end. *)
Fixpoint d_set (d : dict) (k : string) (v : V) : dict :=
  match d with
  | [] => [(k, v)]
  | (k', v') :: d' =>
      if String.eqb k' k then (k', v) :: d' else (k', v') :: d_set d' k v
  end.

(** [dict(pairs)]: the pairs are inserted one after the other. *)
Definition dict_of (pairs : list (string * V)) : dict :=
  fold_left (fun d kv => d_set d (fst kv) (snd kv)) pairs [].
End Dict.

Arguments dict V : clear implicits.

(** The two mappings of a [Matrix] are [OrderedDict]s of lists of floats. *)
Definition OrderedDict : Type := dict (list float).

(** [d[k].append(x)]: the list stored under [k] is mutated in place. *)
Definition d_append (d : OrderedDict) (k : string) (x : float)
  : result OrderedDict :=
  v <- d_get d k ;; Ok (d_set d k (v ++ [x])).

(** ** ElementTree nodes *)

#[warnings="-register-all"]
Inductive Element : Type :=
| Node (tag : string) (text : option string) (children : list Element)
| Comment (text : string).

(** [parent.append(child)] *)
Definition append (parent child : Element) : Element :=
  match parent with
  | Node tag text children => Node tag text (children ++ [child])
  | Comment text => Comment text
  end.

(** [SubElement(parent, tag).text = text] *)
Definition SubElement_text (parent : Element) (tag text : string) : Element :=
  append parent (Node tag (Some text) []).

(** ** The Matrix class *)

Record Matrix : Type := mkMatrix {
  taxa : OrderedDict;
  features : OrderedDict
}.

Definition msg_no_data : string := "No input CSV data found.".
Definition msg_no_taxa : string := "No taxa (rows) found in input CSV.".

(** ['Input row %d contains %d value fields, but there were %d feature
    (column) headers' % (row, nvalues, nFeatures)] *)
Definition msg_row_fields (row nvalues nFeatures : Z) : string :=
  "Input row " ++ format_d row ++ " contains " ++ format_d nvalues
  ++ " value fields, but there were " ++ format_d nFeatures
  ++ " feature (column) headers".

Section MatrixClass.
(** What the Python runtime provides: [str.strip], [float(s)] ([None] when
    it raises [ValueError]), [repr(s)] of a string (the [%r] format), the C
    library's [log10] and [str(x)] of a float. *)
Context {str_strip : StrStrip}.
Variable float_of_str : string -> option float.
Variable repr : string -> string.
Variable libm_log10 : float -> float.
Variable str_of_float : float -> string.

Definition msg_feature_repeated (name : string) : string :=
  "Feature name " ++ repr name ++ " appears more than once".

Definition msg_taxa_repeated (name : string) : string :=
  "Taxa name " ++ repr name ++ " appears more than once".

Definition msg_float (s : string) : string :=
  "could not convert string to float: " ++ repr s.

(** [float(s)] *)
Definition py_float (s : string) : result float :=
  match float_of_str s with
  | Some x => Ok x
  | None => Raise (ValueError (msg_float s))
  end.

(** [math.log10(x)] on a float: a domain error for [x <= 0] (which
    includes minus infinity and excludes NaN), the C function elsewhere. *)
Definition math_log10 (x : float) : result float :=
  if (x <=? 0)%float then Raise (ValueError "math domain error")
  else Ok (libm_log10 x).

(** *** [Matrix.__init__] *)

(** The local variables of [__init__] that live across loop iterations;
    [nFeatures] is unbound until row 1 has been processed. *)
Record locals : Type := mkLocals {
  l_taxa : OrderedDict;
  l_features : OrderedDict;
  l_nFeatures : option Z
}.

(** Body of [for featureName in map(str.strip, fields[1:])]. *)
Definition declare_feature (features : OrderedDict) (featureName : string)
  : result OrderedDict :=
  if d_mem features featureName
  then Raise (ValueError (msg_feature_repeated featureName))
  else Ok (d_set features featureName []).

(** Body of [for featureName, value in zip(features, map(float, ...))];
    [map] is lazy, so each cell is converted when [zip] reaches it. *)
Definition store_value (taxaName : string) (tf : OrderedDict * OrderedDict)
    (cell : string * string) : result (OrderedDict * OrderedDict) :=
  let (taxa, features) := tf in
  let (featureName, field) := cell in
  value <- py_float field ;;
  taxa' <- d_append taxa taxaName value ;;
  features' <- d_append features featureName value ;;
  Ok (taxa', features').

(** Body of [for row, fields in enumerate(csv.reader(csvfp), start=1)]. *)
Definition init_row (st : locals) (rf : Z * list string) : result locals :=
  let (row, fields) := rf in
  if (row =? 1)%Z then
    features' <- foldM declare_feature (map strip (slice_from_1 fields))
                       (l_features st) ;;
    Ok (mkLocals (l_taxa st) features' (Some (len features')))
  else
    nFeatures <- match l_nFeatures st with
                 | Some n => Ok n
                 | None => Raise (UnboundLocalError "nFeatures")
                 end ;;
    if negb (len fields - 1 =? nFeatures)%Z then
      Raise (ValueError (msg_row_fields row (len fields - 1) nFeatures))
    else
      field0 <- getitem fields 0 ;;
      let taxaName := strip field0 in
      if d_mem (l_taxa st) taxaName then
        Raise (ValueError (msg_taxa_repeated taxaName))
      else
        let taxa0 := d_set (l_taxa st) taxaName [] in
        tf <- foldM (store_value taxaName)
                    (combine (keys (l_features st)) (slice_from_1 fields))
                    (taxa0, l_features st) ;;
        Ok (mkLocals (fst tf) (snd tf) (l_nFeatures st)).

(** The loop of [__init__] over the rows that [csv.reader] yields. *)
Definition init_loop (rows : list (list string)) : result locals :=
  foldM init_row (enumerate rows 1) (mkLocals [] [] None).

(** [Matrix(csvfp)], on the rows that [csv.reader(csvfp)] yields. *)
Definition Matrix_init (rows : list (list string)) : result Matrix :=
  st <- init_loop rows ;;
  match l_features st with
  | [] => Raise (ValueError msg_no_data)
  | _ :: _ =>
      match l_taxa st with
      | [] => Raise (ValueError msg_no_taxa)
      | _ :: _ => Ok (mkMatrix (l_taxa st) (l_features st))
      end
  end.

(** [Matrix(csvfp)] when the reader itself may fail: [csv.reader], called
    and iterated by the [for] statement, yields [rows] and then either ends
    ([None]) or raises ([Some e], a [_csv.Error] for instance); nothing
    catches the exception, which leaves the loop and the constructor. *)
Definition Matrix_init_reader (rows : list (list string))
    (reader_error : option exn) : result Matrix :=
  match reader_error with
  | Some e => st <- init_loop rows ;; Raise e
  | None => Matrix_init rows
  end.

(** *** [Matrix.distanceMatrix] *)

(** Body of [for value in self.features[featureName]] with its
    [try ... except ValueError]. *)
Definition log_value (scaledvalues : list float) (value : float)
  : result (list float) :=
  match math_log10 value with
  | Ok l => Ok (scaledvalues ++ [l])
  | Raise (ValueError _) => Ok (scaledvalues ++ [0%float])
  | Raise e => Raise e
  end.

(** The local [scaledvalues] of [distanceMatrix]. *)
Definition scaledvalues (self : Matrix) (featureName : string)
    (logged : bool) : result (list float) :=
  if logged then
    column <- d_get (features self) featureName ;;
    foldM log_value column []
  else
    d_get (features self) featureName.

Definition distanceMatrix (self : Matrix) (featureName : string)
    (logged : bool) : result (list (list float)) :=
  scaled <- scaledvalues self featureName logged ;;
  let values := dict_of (combine (keys (taxa self)) scaled) in
  mapM (fun taxaName1 =>
          mapM (fun taxaName2 =>
                  v1 <- d_get values taxaName1 ;;
                  v2 <- d_get values taxaName2 ;;
                  Ok (v1 - v2)%float)
               (keys (taxa self)))
       (keys (taxa self)).

(** *** [Matrix.upperDiagonal] *)

Definition upperDiagonal (self : Matrix) (featureName : string)
    (logged : bool) : result (list float) :=
  let nTaxa := List.length (taxa self) in
  dm <- distanceMatrix self featureName logged ;;
  foldM (fun result row =>
           foldM (fun result col =>
                    dm_row <- getitem dm row ;;
                    x <- getitem dm_row col ;;
                    Ok (result ++ [x]))
                 (range (row + 1) nTaxa) result)
        (range 0 nTaxa) [].

(** *** [Matrix.upperDiagonalAsXML] *)

Definition upperDiagonalAsXML (self : Matrix) (featureName : string)
    (elementName : string) (logged : bool) : result Element :=
  ud <- upperDiagonal self featureName logged ;;
  Ok (fold_left (fun result value => SubElement_text result "value" value)
                (map str_of_float ud)
                (Node elementName None [])).

(** *** [Matrix.allFeaturesAsXML] *)

Definition allFeaturesAsXML (self : Matrix) (elementName : string)
    (logged : bool) : result Element :=
  foldM (fun result featureName =>
           let result1 := append result (Comment featureName) in
           child <- upperDiagonalAsXML self featureName "feature" logged ;;
           Ok (append result1 child))
        (keys (features self))
        (Node elementName None []).

End MatrixClass.

(** ** A fragment of the Python runtime, to run the code on concrete input

    The theorems below hold for every [strip], [float], [repr], [log10] and
    [str]; the worked examples alone run the code with the functions of this
    module, which agree with Python on the literals and values that occur
    in the examples. *)

Module Runtime.

(** [str.isspace] on ASCII characters: TAB..CR, FS..US and the space. *)
Definition isspace (c : ascii) : bool :=
  let n := nat_of_ascii c in
  (Nat.leb 9 n && Nat.leb n 13) || (Nat.leb 28 n && Nat.leb n 32).

Fixpoint lstrip (s : string) : string :=
  match s with
  | String c s' => if isspace c then lstrip s' else s
  | EmptyString => EmptyString
  end.

Fixpoint rstrip (s : string) : string :=
  match s with
  | String c s' =>
      match rstrip s' with
      | EmptyString => if isspace c then EmptyString else String c EmptyString
      | t => String c t
      end
  | EmptyString => EmptyString
  end.

(** [str.strip] on strings of ASCII characters, as in the examples; the
    white space that Python knows outside ASCII is not covered. *)
Definition strip (s : string) : string := rstrip (lstrip s).

Definition digit_of (c : ascii) : option Z :=
  let n := nat_of_ascii c in
  if Nat.leb 48 n && Nat.leb n 57 then Some (Z.of_nat (n - 48)) else None.

Fixpoint digits_value (s : string) (acc : Z) : option Z :=
  match s with
  | EmptyString => Some acc
  | String c s' =>
      match digit_of c with
      | Some d => digits_value s' (10 * acc + d)
      | None => None
      end
  end.

(** The float nearest to a non-negative integer (ties to even). *)
Definition float_of_Z (z : Z) : float :=
  SF2Prim (binary_normalize prec emax z 0 false).

Definition unsigned_literal (s : string) : option float :=
  if String.eqb s "inf" then Some infinity
  else if String.eqb s "nan" then Some nan
  else match s with
       | EmptyString => None
       | _ => option_map float_of_Z (digits_value s 0)
       end.

(** [float(s)] on optionally signed integer literals, ["inf"] and ["nan"],
    with surrounding white space; other literals are not covered. *)
Definition float_of_str (s : string) : option float :=
  match strip s with
  | String "-" s' => option_map PrimFloat.opp (unsigned_literal s')
  | String "+" s' => unsigned_literal s'
  | s' => unsigned_literal s'
  end.

(** [repr(s)] for a string without quotes, backslashes or control
    characters. *)
Definition repr (s : string) : string := "'" ++ s ++ "'".

(** [log10] at the first powers of ten and at infinity; other arguments are
    not covered. *)
Definition log10 (x : float) : float :=
  if (x =? 1)%float then 0%float
  else if (x =? 10)%float then 1%float
  else if (x =? 100)%float then 2%float
  else if (x =? 1000)%float then 3%float
  else if (x =? infinity)%float then infinity
  else nan.

(** [str(x)] for NaN, the infinities and floats whose value is an integer
    below 10^16 in magnitude; other floats are not covered. *)
Definition str (x : float) : string :=
  match Prim2SF x with
  | S754_nan => "nan"
  | S754_infinity s => if s then "-inf" else "inf"
  | S754_zero s => if s then "-0.0" else "0.0"
  | S754_finite s m e =>
      let sign := if s then "-" else "" in
      let z := if (0 <=? e)%Z then Some (Z.pos m * 2 ^ e)%Z
               else if (Z.pos m mod 2 ^ (- e) =? 0)%Z
                    then Some (Z.pos m / 2 ^ (- e))%Z else None in
      match z with
      | Some n => if (n <? 10 ^ 16)%Z then sign ++ format_d n ++ ".0" else ""
      | None => ""
      end
  end.

Definition str_strip : StrStrip := strip.

Definition Matrix_init :=
  Matrix_init (str_strip := str_strip) float_of_str repr.
Definition distanceMatrix := distanceMatrix log10.
Definition upperDiagonal := upperDiagonal log10.
Definition upperDiagonalAsXML := upperDiagonalAsXML log10 str.
Definition allFeaturesAsXML := allFeaturesAsXML log10 str.

End Runtime.

(** The inputs of the repository's tests, as [csv.reader] splits them. *)
Definition csv_2x2 : list (list string) :=
  [ ["Ignored"; " A"; " B"]; ["name1"; " 3"; " 4"]; ["name2"; " 5"; " 6"] ].

Definition csv_3x2 : list (list string) :=
  [ ["Ignored"; " A"; " B"]; ["name1"; " 3"; " 4"]; ["name2"; " 5"; " 6"];
    ["name3"; " 7"; " 8"] ].

Definition csv_xml : list (list string) :=
  [ ["Ignored"; " A"; " B"]; ["name1"; " 3"; " 4"]; ["name2"; " 5"; " 7"];
    ["name3"; " 7"; " 9"] ].

Definition csv_too_many : list (list string) :=
  [ ["Ignored"; " A"; " B"; " C"]; ["name"; " 3"; " 4"; " 5"; " 6"] ].

Definition csv_header_only : list (list string) := [ ["A"; " B"; " C"] ].

Definition csv_logs : list (list string) :=
  [ ["Ignored"; " A"]; ["t1"; " 100"]; ["t2"; " 0"]; ["t3"; " -5"];
    ["t4"; " 10"] ].

Definition csv_inf : list (list string) :=
  [ ["Ignored"; " A"]; ["name1"; " inf"] ].

Definition csv_blank_row : list (list string) :=
  [ ["Ignored"; " A"]; []; ["name"; " 1"; " 2"] ].

Definition csv_no_features : list (list string) :=
  [ ["Ignored"]; ["name1"]; ["name2"] ].

(** The matrices these inputs construct. *)
Definition matrix_2x2 : Matrix :=
  mkMatrix [("name1", [3; 4]); ("name2", [5; 6])]%float
           [("A", [3; 5]); ("B", [4; 6])]%float.

Definition matrix_3x2 : Matrix :=
  mkMatrix [("name1", [3; 4]); ("name2", [5; 6]); ("name3", [7; 8])]%float
           [("A", [3; 5; 7]); ("B", [4; 6; 8])]%float.

Definition matrix_xml : Matrix :=
  mkMatrix [("name1", [3; 4]); ("name2", [5; 7]); ("name3", [7; 9])]%float
           [("A", [3; 5; 7]); ("B", [4; 7; 9])]%float.

Definition matrix_logs : Matrix :=
  mkMatrix [("t1", [100]); ("t2", [0]); ("t3", [-5]); ("t4", [10])]%float
           [("A", [100; 0; -5; 10])]%float.

Definition matrix_inf : Matrix :=
  mkMatrix [("name1", [infinity])] [("A", [infinity])].

(** * Definitions used to state the properties *)

(** What one accepted data row does to the feature columns: the [j]-th
    column receives the row's [j]-th value. *)
Definition append_column_values (F : OrderedDict) (ws : list float)
  : OrderedDict :=
  map (fun p => (fst (fst p), snd (fst p) ++ [snd p])) (combine F ws).

(** The taxon name of a data row: [fields[0].strip()]. *)
Definition taxon_name {str_strip : StrStrip} (fields : list string) : string :=
  strip (hd "" fields).

(** The state of the constructor's loop after the header row and the data
    rows [done]: both mappings have distinct keys in input order, every
    taxon holds the converted cells of its row, and the feature columns are
    the columns of the grid whose rows the taxa hold. *)
Record loop_invariant {str_strip : StrStrip}
    (float_of_str : string -> option float)
    (repr : string -> string) (header : list string)
    (done : list (list string)) (st : locals) : Prop := {
  inv_feature_keys : keys (l_features st) = map strip (slice_from_1 header);
  inv_feature_nodup : NoDup (keys (l_features st));
  inv_nFeatures : l_nFeatures st = Some (len (l_features st));
  inv_taxa_keys : keys (l_taxa st) = map taxon_name done;
  inv_taxa_nodup : NoDup (keys (l_taxa st));
  inv_rows_nonempty : Forall (fun fields => fields <> []) done;
  inv_taxa_values :
    Forall2 (fun fields vs =>
               mapM (py_float float_of_str repr) (slice_from_1 fields) = Ok vs)
            done (values (l_taxa st));
  inv_row_length :
    Forall (fun vs => List.length vs = List.length (l_features st))
           (values (l_taxa st));
  inv_column_length :
    Forall (fun col => List.length col = List.length (l_taxa st))
           (values (l_features st));
  inv_grid :
    forall i j, i < List.length (l_taxa st) ->
                j < List.length (l_features st) ->
      nth j (nth i (values (l_taxa st)) []) 0%float
      = nth i (nth j (values (l_features st)) []) 0%float
}.

(** What the queries need of a matrix: distinct names, and one value per
    taxon in every feature column. *)
Record well_formed (m : Matrix) : Prop := {
  wf_taxa_nodup : NoDup (keys (taxa m));
  wf_features_nodup : NoDup (keys (features m));
  wf_column_length :
    Forall (fun col => List.length col = List.length (taxa m))
           (values (features m))
}.

(** The scaled value of a raw value. *)
Definition scaled_value (libm_log10 : float -> float) (logged : bool)
    (value : float) : float :=
  if logged then (if (value <=? 0)%float then 0%float else libm_log10 value)
  else value.

(** The matrix of pairwise differences of a list of scaled values. *)
Definition differences (scaled : list float) : list (list float) :=
  map (fun v1 => map (fun v2 => (v1 - v2)%float) scaled) scaled.

(** Entry [dm[i][j]] of a matrix of floats. *)
Definition entry (dm : list (list float)) (i j : nat) : float :=
  nth j (nth i dm []) 0%float.

(** The strictly-upper-triangular entries in the nested order "for row in
    0..n-1, for column in row+1..n-1". *)
Definition upper_triangle (dm : list (list float)) (n : nat) : list float :=
  flat_map (fun row => map (fun col => entry dm row col)
                           (seq (row + 1) (n - (row + 1))))
           (seq 0 n).

(** The same entries, as the cells above the diagonal picked out of the
    row-major enumeration of all cells. *)
Definition above_diagonal (dm : list (list float)) (n : nat) : list float :=
  map (fun ij => entry dm (fst ij) (snd ij))
      (filter (fun ij => Nat.ltb (fst ij) (snd ij))
              (list_prod (seq 0 n) (seq 0 n))).

(** The children that [upperDiagonalAsXML] gives its element. *)
Definition value_nodes (str_of_float : float -> string) (ud : list float)
  : list Element :=
  map (fun v => Node "value" (Some (str_of_float v)) []) ud.

(** The upper diagonal of a feature, as a total function of its name. *)
Definition upper_values (libm_log10 : float -> float) (m : Matrix)
    (logged : bool) (f : string) : list float :=
  match d_find (features m) f with
  | Some column =>
      upper_triangle (differences (map (scaled_value libm_log10 logged) column))
                     (List.length (taxa m))
  | None => []
  end.

(** Zeros and finite numbers, as opposed to the infinities and NaN. *)
Definition SF_is_finite (a : spec_float) : bool :=
  match a with
  | S754_zero _ | S754_finite _ _ _ => true
  | S754_infinity _ | S754_nan => false
  end.

(** The exceptions that the loop of the constructor raises. *)
Definition loop_error (repr : string -> string) (e : exn) : Prop :=
  (exists name, e = ValueError (msg_feature_repeated repr name)) \/
  (exists row nvalues nFeatures,
      e = ValueError (msg_row_fields row nvalues nFeatures)) \/
  (exists name, e = ValueError (msg_taxa_repeated repr name)) \/
  (exists field, e = ValueError (msg_float repr field)).

(** ** Definitions for the further properties *)

(** The columns [0..n-1] of a grid of rows. *)
Definition grid_columns (grid : list (list float)) (n : nat)
  : list (list float) :=
  map (fun j => map (fun row => nth j row 0%float) grid) (seq 0 n).

(** The matrix that holds the rows [grid] under the names of the data rows
    and their columns under the names of the header. *)
Definition built_matrix {str_strip : StrStrip} (header : list string)
    (data : list (list string))
    (grid : list (list float)) : Matrix :=
  mkMatrix (combine (map taxon_name data) grid)
           (combine (map strip (slice_from_1 header))
                    (grid_columns grid (List.length (slice_from_1 header)))).

(** The rows that the constructor accepts, and what it reads in them: a
    header that declares at least one feature, with distinct stripped
    names; at least one data row; in every data row one cell more than
    there are features; distinct stripped taxon names; and cells after the
    first that [float] converts, to the rows of [grid]. *)
Definition accepted {str_strip : StrStrip}
    (float_of_str : string -> option float)
    (repr : string -> string) (header : list string)
    (data : list (list string)) (grid : list (list float)) : Prop :=
  slice_from_1 header <> [] /\
  data <> [] /\
  NoDup (map strip (slice_from_1 header)) /\
  NoDup (map taxon_name data) /\
  Forall (fun fields =>
            List.length fields = S (List.length (slice_from_1 header))) data /\
  Forall2 (fun fields vs =>
             mapM (py_float float_of_str repr) (slice_from_1 fields) = Ok vs)
          data grid.

(** Each value minus every later value, in order. *)
Fixpoint pairwise_differences (scaled : list float) : list float :=
  match scaled with
  | [] => []
  | x :: rest =>
      map (fun y => (x - y)%float) rest ++ pairwise_differences rest
  end.

(** [list(element)]: the children of a node. *)
Definition children (e : Element) : list Element :=
  match e with
  | Node _ _ cs => cs
  | Comment _ => []
  end.

(** * Facts about the building blocks *)

Lemma bind_Ok_inv {A B : Type} (r : result A) (k : A -> result B) (b : B) :
  bind r k = Ok b -> exists a, r = Ok a /\ k a = Ok b.
Proof.
  destruct r as [a|e]; simpl; intros H; [exists a; auto | discriminate].
Qed.

Section DictFacts.
Context {V : Type}.
Implicit Types (d pre post : dict V) (k : string) (v : V).

Lemma d_find_None d k : d_find d k = None <-> ~ In k (keys d).
Proof.
  induction d as [|[k' v'] d IH]; simpl.
  - tauto.
  - destruct (String.eqb_spec k' k) as [->|Hne].
    + split; [discriminate | intros H; exfalso; apply H; now left].
    + rewrite IH. tauto.
Qed.

Lemma d_mem_true d k : d_mem d k = true <-> In k (keys d).
Proof.
  unfold d_mem. destruct (d_find d k) eqn:E.
  - split; [intros _ | reflexivity].
    destruct (in_dec string_dec k (keys d)) as [|Hn]; [assumption|].
    apply d_find_None in Hn. congruence.
  - apply d_find_None in E. split; [discriminate | tauto].
Qed.

Lemma d_mem_false d k : d_mem d k = false <-> ~ In k (keys d).
Proof.
  rewrite <- d_mem_true. destruct (d_mem d k); split; congruence.
Qed.

Lemma d_find_mid pre post k v :
  ~ In k (keys pre) -> d_find (pre ++ (k, v) :: post) k = Some v.
Proof.
  induction pre as [|[k' v'] pre IH]; simpl; intros Hn.
  - now rewrite String.eqb_refl.
  - destruct (String.eqb_spec k' k) as [->|_]; [tauto|]. apply IH. tauto.
Qed.

Lemma d_set_mid pre post k v v' :
  ~ In k (keys pre) ->
  d_set (pre ++ (k, v) :: post) k v' = pre ++ (k, v') :: post.
Proof.
  induction pre as [|[k0 v0] pre IH]; simpl; intros Hn.
  - now rewrite String.eqb_refl.
  - destruct (String.eqb_spec k0 k) as [->|_]; [tauto|].
    f_equal. apply IH. tauto.
Qed.

Lemma d_set_absent d k v : ~ In k (keys d) -> d_set d k v = d ++ [(k, v)].
Proof.
  induction d as [|[k0 v0] d IH]; simpl; intros Hn; [reflexivity|].
  destruct (String.eqb_spec k0 k) as [->|_]; [tauto|].
  f_equal. apply IH. tauto.
Qed.

Lemma keys_app d d' : keys (d ++ d') = keys d ++ keys d'.
Proof. apply map_app. Qed.

Lemma values_app d d' : values (d ++ d') = values d ++ values d'.
Proof. apply map_app. Qed.

Lemma keys_length d : List.length (keys d) = List.length d.
Proof. apply length_map. Qed.

Lemma values_length d : List.length (values d) = List.length d.
Proof. apply length_map. Qed.

(** With distinct keys, [dict(pairs)] holds the pairs as they came. *)
Lemma dict_of_acc (pairs acc : dict V) :
  NoDup (keys (acc ++ pairs)) ->
  fold_left (fun d kv => d_set d (fst kv) (snd kv)) pairs acc = acc ++ pairs.
Proof.
  revert acc. induction pairs as [|[k v] pairs IH]; intros acc Hnd; simpl.
  - now rewrite app_nil_r.
  - rewrite d_set_absent.
    + rewrite IH; rewrite <- app_assoc; [reflexivity | exact Hnd].
    + rewrite keys_app in Hnd. simpl in Hnd.
      apply NoDup_remove_2 in Hnd. intros Hin. apply Hnd.
      apply in_or_app. now left.
Qed.

Lemma dict_of_NoDup (pairs : dict V) :
  NoDup (keys pairs) -> dict_of pairs = pairs.
Proof. intros H. unfold dict_of. now rewrite dict_of_acc. Qed.

Lemma keys_combine (ks : list string) (vs : list V) :
  List.length ks = List.length vs -> keys (combine ks vs) = ks.
Proof.
  revert vs. induction ks as [|k ks IH]; intros [|v vs]; simpl;
    try discriminate; auto.
  intros [= H]. f_equal. now apply IH.
Qed.

(** Looking up the [i]-th key of a zip with distinct keys gives the [i]-th
    value. *)
Lemma d_find_combine (ks : list string) (vs : list V) i k :
  NoDup ks -> List.length ks = List.length vs ->
  nth_error ks i = Some k ->
  d_find (combine ks vs) k = nth_error vs i.
Proof.
  revert vs i. induction ks as [|k0 ks IH]; intros [|v vs] i Hnd Hlen Hi;
    simpl in *; try discriminate.
  - destruct i; discriminate.
  - inversion Hnd as [|? ? Hnotin Hnd']; subst.
    destruct i as [|i]; simpl in *.
    + injection Hi as ->. now rewrite String.eqb_refl.
    + destruct (String.eqb_spec k0 k) as [->|_].
      * exfalso. apply Hnotin. eapply nth_error_In; eauto.
      * apply IH; auto.
Qed.
End DictFacts.

Section MonadFacts.
Context {X Y : Type}.

Lemma mapM_pure (f : X -> Y) (xs : list X) :
  mapM (fun x => Ok (f x)) xs = Ok (map f xs).
Proof.
  induction xs as [|x xs IH]; simpl; [reflexivity|]. now rewrite IH.
Qed.

Lemma mapM_length (f : X -> result Y) (xs : list X) (ys : list Y) :
  mapM f xs = Ok ys -> List.length ys = List.length xs.
Proof.
  revert ys. induction xs as [|x xs IH]; simpl; intros ys H.
  - now injection H as <-.
  - destruct (f x) as [y|]; simpl in H; [|discriminate].
    destruct (mapM f xs) as [ys'|]; simpl in H; [|discriminate].
    injection H as <-. simpl. f_equal. now apply IH.
Qed.

(** A loop over keys whose body only depends on the value the key stands
    for is a loop over the values. *)
Lemma mapM_along {K : Type} (h : K -> result Y) (g : X -> result Y)
    (ks : list K) (vs : list X) :
  List.length ks = List.length vs ->
  (forall i k v, nth_error ks i = Some k -> nth_error vs i = Some v ->
                 h k = g v) ->
  mapM h ks = mapM g vs.
Proof.
  revert vs. induction ks as [|k ks IH]; intros [|v vs] Hlen H;
    simpl in *; try discriminate; [reflexivity|].
  rewrite (H 0 k v eq_refl eq_refl). f_equal.
  rewrite (IH vs); [reflexivity | congruence |].
  intros i k' v' Hk Hv. exact (H (S i) k' v' Hk Hv).
Qed.
End MonadFacts.

(** * The constructor *)

Section Constructor.
Context {str_strip : StrStrip}.
Variable float_of_str : string -> option float.
Variable repr : string -> string.

Local Abbreviation py_float' := (py_float float_of_str repr).
Local Abbreviation store_value' := (store_value float_of_str repr).
Local Abbreviation declare_feature' := (declare_feature repr).
Local Abbreviation init_row' := (init_row float_of_str repr).
Local Abbreviation init_loop' := (init_loop float_of_str repr).
Local Abbreviation Matrix_init' := (Matrix_init float_of_str repr).

Lemma store_loop taxaName (Ftodo : OrderedDict) :
  forall (cells : list string) (Fpre T : OrderedDict) (vs : list float),
    NoDup (keys (Fpre ++ Ftodo)) ->
    List.length cells = List.length Ftodo ->
    ~ In taxaName (keys T) ->
    foldM (store_value' taxaName) (combine (keys Ftodo) cells)
          (T ++ [(taxaName, vs)], Fpre ++ Ftodo)
    = ws <- mapM py_float' cells ;;
      Ok (T ++ [(taxaName, vs ++ ws)],
          Fpre ++ append_column_values Ftodo ws).
Proof.
  unfold py_float.
  induction Ftodo as [|[k col] rest IH]; intros [|c cs] Fpre T vs Hnd Hlen HT;
    simpl in *; try discriminate.
  - now rewrite !app_nil_r.
  - unfold py_float.
    destruct (float_of_str c) as [w|]; simpl; [|reflexivity].
    unfold d_append, d_get.
    rewrite (d_find_mid T [] taxaName vs HT). simpl.
    rewrite (d_set_mid T [] taxaName vs (vs ++ [w]) HT).
    assert (Hk : ~ In k (keys Fpre)).
    { rewrite keys_app in Hnd. simpl in Hnd. apply NoDup_remove_2 in Hnd.
      intros Hin. apply Hnd. apply in_or_app. now left. }
    rewrite (d_find_mid Fpre rest k col Hk). simpl.
    rewrite (d_set_mid Fpre rest k col (col ++ [w]) Hk).
    replace (Fpre ++ (k, col ++ [w]) :: rest)
      with ((Fpre ++ [(k, col ++ [w])]) ++ rest)
      by (now rewrite <- app_assoc).
    rewrite IH; [| | congruence | exact HT].
    + match goal with |- context [mapM ?f cs] => destruct (mapM f cs) as [ws|e] end;
        simpl; [|reflexivity].
      unfold append_column_values. simpl. now rewrite <- !app_assoc.
    + rewrite <- app_assoc. simpl.
      rewrite keys_app in *. simpl in *. exact Hnd.
Qed.

Lemma declare_loop_ok (names : list string) :
  forall acc : OrderedDict,
    NoDup (keys acc ++ names) ->
    foldM declare_feature' names acc
    = Ok (acc ++ map (fun n => (n, [])) names).
Proof.
  induction names as [|n names IH]; intros acc Hnd; simpl.
  - now rewrite app_nil_r.
  - assert (Hn : ~ In n (keys acc)).
    { apply NoDup_remove_2 in Hnd. intros Hin. apply Hnd.
      apply in_or_app. now left. }
    unfold declare_feature at 1.
    apply d_mem_false in Hn as Hm. rewrite Hm. simpl.
    rewrite (d_set_absent acc n [] Hn).
    rewrite IH; [now rewrite <- app_assoc|].
    rewrite keys_app. simpl. now rewrite <- app_assoc.
Qed.

Lemma declare_loop_inv (names : list string) :
  forall acc F' : OrderedDict,
    NoDup (keys acc) ->
    foldM declare_feature' names acc = Ok F' ->
    NoDup (keys acc ++ names) /\ F' = acc ++ map (fun n => (n, [])) names.
Proof.
  induction names as [|n names IH]; intros acc F' Hnd H; simpl in *.
  - injection H as <-. now rewrite !app_nil_r.
  - unfold declare_feature at 1 in H.
    destruct (d_mem acc n) eqn:Hm; simpl in H; [discriminate|].
    apply d_mem_false in Hm.
    rewrite (d_set_absent acc n [] Hm) in H.
    apply IH in H.
    + rewrite keys_app in H. simpl in H. rewrite <- !app_assoc in H.
      exact H.
    + rewrite keys_app. simpl. apply NoDup_app; auto.
      * repeat constructor. simpl. tauto.
      * intros x Hx [<-|[]]. contradiction.
Qed.
End Constructor.

Section ConstructorRows.
Context {str_strip : StrStrip}.
Variable float_of_str : string -> option float.
Variable repr : string -> string.

Local Abbreviation py_float' := (py_float float_of_str repr).
Local Abbreviation init_row' := (init_row float_of_str repr).
Local Abbreviation init_loop' := (init_loop float_of_str repr).
Local Abbreviation Matrix_init' := (Matrix_init float_of_str repr).
Local Abbreviation loop_invariant' := (loop_invariant float_of_str repr).

(** The header row, from the initial state. *)
Lemma init_row_header (fields : list string) :
  init_row' (mkLocals [] [] None) (1%Z, fields)
  = features' <- foldM (declare_feature repr)
                       (map strip (slice_from_1 fields)) [] ;;
    Ok (mkLocals [] features' (Some (len features'))).
Proof. reflexivity. Qed.

(** A data row, in order of the checks the code makes. *)
Lemma init_row_data (st : locals) (row : Z) (fields : list string) :
  (row =? 1)%Z = false ->
  l_nFeatures st = Some (len (l_features st)) ->
  NoDup (keys (l_features st)) ->
  init_row' st (row, fields)
  = if negb (len fields - 1 =? len (l_features st))%Z then
      Raise (ValueError (msg_row_fields row (len fields - 1)
                                        (len (l_features st))))
    else if d_mem (l_taxa st) (taxon_name fields) then
      Raise (ValueError (msg_taxa_repeated repr (taxon_name fields)))
    else
      ws <- mapM py_float' (slice_from_1 fields) ;;
      Ok (mkLocals (l_taxa st ++ [(taxon_name fields, ws)])
                   (append_column_values (l_features st) ws)
                   (l_nFeatures st)).
Proof.
  intros Hrow HnF Hnd. unfold init_row. rewrite Hrow, HnF. simpl.
  destruct (len fields - 1 =? len (l_features st))%Z eqn:Hlen; simpl;
    [|reflexivity].
  apply Z.eqb_eq in Hlen. unfold len in Hlen.
  destruct fields as [|f0 cells]; [simpl in Hlen; lia|].
  assert (Hcells : List.length cells = List.length (l_features st))
    by (cbn [List.length] in Hlen; lia).
  clear Hlen. unfold taxon_name. simpl.
  destruct (d_mem (l_taxa st) (strip f0)) eqn:Hm; [reflexivity|].
  apply d_mem_false in Hm.
  rewrite (d_set_absent _ _ [] Hm).
  pose proof (store_loop float_of_str repr (strip f0) (l_features st) cells
                         [] (l_taxa st) []) as Hs.
  simpl in Hs.
  match goal with
  | |- bind ?a _ = _ =>
      replace a with
        (ws <- mapM py_float' cells ;;
         Ok (l_taxa st ++ [(strip f0, ws)],
             append_column_values (l_features st) ws))
        by (symmetry; apply Hs; auto)
  end.
  destruct (mapM py_float' cells); reflexivity.
Qed.

Lemma acv_keys (F : OrderedDict) :
  forall ws, List.length ws = List.length F ->
             keys (append_column_values F ws) = keys F.
Proof.
  induction F as [|[k col] F IH]; intros [|w ws] Hlen; simpl in *;
    try discriminate; [reflexivity|].
  f_equal. apply IH. congruence.
Qed.

Lemma acv_length (F : OrderedDict) ws :
  List.length ws = List.length F ->
  List.length (append_column_values F ws) = List.length F.
Proof.
  intros H. rewrite <- (keys_length (append_column_values F ws)).
  rewrite acv_keys by assumption. apply keys_length.
Qed.

Lemma acv_nth (F : OrderedDict) :
  forall ws j, List.length ws = List.length F -> j < List.length F ->
    nth j (values (append_column_values F ws)) []
    = nth j (values F) [] ++ [nth j ws 0%float].
Proof.
  induction F as [|[k col] F IH]; intros [|w ws] j Hlen Hj; simpl in *;
    try discriminate; [lia|].
  destruct j as [|j]; [reflexivity|]. apply IH; [congruence | lia].
Qed.

Lemma invariant_header (header : list string) (F' : OrderedDict) :
  foldM (declare_feature repr) (map strip (slice_from_1 header)) [] = Ok F' ->
  loop_invariant' header [] (mkLocals [] F' (Some (len F'))).
Proof.
  intros H.
  destruct (declare_loop_inv float_of_str repr _ [] F' (NoDup_nil _) H) as [Hnd ->].
  simpl in *.
  assert (Hk : keys (map (fun n : string => (n, @nil float))
                         (map strip (slice_from_1 header)))
               = map strip (slice_from_1 header)).
  { unfold keys. rewrite map_map. simpl. apply map_id. }
  constructor; simpl; auto.
  - now rewrite Hk.
  - constructor.
  - unfold values. rewrite map_map. simpl.
    apply Forall_forall. intros col Hin. apply in_map_iff in Hin.
    now destruct Hin as [? [<- _]].
  - intros i j Hi. lia.
Qed.

Lemma invariant_step header done st fields ws :
  loop_invariant' header done st ->
  ~ In (taxon_name fields) (keys (l_taxa st)) ->
  fields <> [] ->
  mapM py_float' (slice_from_1 fields) = Ok ws ->
  List.length ws = List.length (l_features st) ->
  loop_invariant' header (done ++ [fields])
    (mkLocals (l_taxa st ++ [(taxon_name fields, ws)])
              (append_column_values (l_features st) ws)
              (l_nFeatures st)).
Proof.
  intros [Hfk Hfnd HnF Htk Htnd Hrne Htv Hrl Hcl Hgrid] Hnew Hfields Hws Hlen.
  assert (HlenF := acv_length (l_features st) ws Hlen).
  constructor; simpl.
  - now rewrite acv_keys.
  - now rewrite acv_keys.
  - rewrite HnF. unfold len. now rewrite HlenF.
  - rewrite keys_app, map_app, Htk. reflexivity.
  - rewrite keys_app. simpl. apply NoDup_app; auto.
    + repeat constructor. simpl. tauto.
    + intros x Hx [<-|[]]. contradiction.
  - apply Forall_app. split; auto.
  - rewrite values_app. apply Forall2_app; auto. simpl. now repeat constructor.
  - rewrite values_app, HlenF. apply Forall_app. split; auto.
    simpl. now repeat constructor.
  - apply Forall_forall. intros col Hin.
    destruct (In_nth _ _ [] Hin) as [j [Hj <-]].
    rewrite values_length, HlenF in Hj.
    rewrite acv_nth by assumption.
    rewrite !length_app. simpl. f_equal.
    rewrite Forall_forall in Hcl. apply Hcl. apply nth_In.
    now rewrite values_length.
  - intros i j Hi Hj. rewrite HlenF in Hj. rewrite length_app in Hi.
    simpl in Hi. rewrite acv_nth by assumption. rewrite values_app.
    assert (Hcol : List.length (nth j (values (l_features st)) [])
                   = List.length (l_taxa st)).
    { rewrite Forall_forall in Hcl. apply Hcl. apply nth_In.
      now rewrite values_length. }
    destruct (Nat.eq_dec i (List.length (l_taxa st))) as [->|Hne].
    + rewrite app_nth2; rewrite values_length; [|lia].
      rewrite Nat.sub_diag. simpl.
      rewrite app_nth2; rewrite Hcol; [|lia].
      now rewrite Nat.sub_diag.
    + rewrite app_nth1 by (rewrite values_length; lia).
      rewrite app_nth1 by lia. apply Hgrid; lia.
Qed.

Lemma enumerate_app {A : Type} (xs ys : list A) (k : Z) :
  enumerate (xs ++ ys) k = enumerate xs k ++ enumerate ys (k + len xs).
Proof.
  revert k. induction xs as [|x xs IH]; intros k; simpl.
  - unfold len. simpl. now rewrite Z.add_0_r.
  - rewrite IH. do 3 f_equal. unfold len. simpl List.length. lia.
Qed.

(** The data rows keep the invariant. *)
Lemma invariant_data_rows header (data : list (list string)) :
  forall done st st' k,
    (2 <= k)%Z ->
    loop_invariant' header done st ->
    foldM init_row' (enumerate data k) st = Ok st' ->
    loop_invariant' header (done ++ data) st'.
Proof.
  induction data as [|fields data IH]; intros done st st' k Hk Hinv H;
    cbn [enumerate foldM] in H.
  - injection H as <-. now rewrite app_nil_r.
  - apply bind_Ok_inv in H. destruct H as [st1 [Hrow H]].
    rewrite init_row_data in Hrow;
      [| apply Z.eqb_neq; lia | apply Hinv | apply Hinv].
    destruct (len fields - 1 =? len (l_features st))%Z eqn:Hlen;
      simpl in Hrow; [|discriminate].
    destruct (d_mem (l_taxa st) (taxon_name fields)) eqn:Hm;
      [discriminate|].
    destruct (mapM py_float' (slice_from_1 fields)) as [ws|] eqn:Hws;
      simpl in Hrow; [|discriminate].
    injection Hrow as <-.
    replace (done ++ fields :: data) with ((done ++ [fields]) ++ data)
      by (now rewrite <- app_assoc).
    eapply IH; [| |exact H]; [lia|].
    apply invariant_step; auto.
    + now apply d_mem_false.
    + apply Z.eqb_eq in Hlen. unfold len in Hlen.
      intros ->. simpl in Hlen. lia.
    + apply mapM_length in Hws. rewrite Hws.
      apply Z.eqb_eq in Hlen. unfold len in Hlen.
      destruct fields; cbn [List.length slice_from_1 tl] in *; lia.
Qed.

(** What the loop has built when it ends without an exception. *)
Lemma init_loop_Ok header data st :
  init_loop' (header :: data) = Ok st -> loop_invariant' header data st.
Proof.
  unfold init_loop. intros Hloop.
  change (foldM init_row' ((1%Z, header) :: enumerate data 2)
                (mkLocals [] [] None) = Ok st) in Hloop.
  cbn [foldM] in Hloop. apply bind_Ok_inv in Hloop.
  destruct Hloop as [st1 [Hhead Hdata]].
  rewrite init_row_header in Hhead.
  apply bind_Ok_inv in Hhead. destruct Hhead as [F' [HF' Hst1]].
  injection Hst1 as <-.
  apply invariant_header in HF'.
  exact (invariant_data_rows header data [] _ _ 2%Z ltac:(lia) HF' Hdata).
Qed.

(** What a successful construction has built. *)
Lemma Matrix_init_Ok (rows : list (list string)) (m : Matrix) :
  Matrix_init' rows = Ok m ->
  exists header data,
    rows = header :: data /\
    loop_invariant' header data
      (mkLocals (taxa m) (features m) (Some (len (features m)))) /\
    features m <> [] /\ taxa m <> [].
Proof.
  unfold Matrix_init. intros H.
  apply bind_Ok_inv in H. destruct H as [st [Hloop H]].
  destruct (l_features st) as [|f F] eqn:HF; [discriminate|].
  destruct (l_taxa st) as [|t T] eqn:HT; [discriminate|].
  injection H as <-.
  destruct rows as [|header data].
  - unfold init_loop in Hloop. simpl in Hloop.
    injection Hloop as <-. discriminate.
  - exists header, data. split; [reflexivity|].
    apply init_loop_Ok in Hloop.
    split; [|split; discriminate].
    destruct st as [T0 F0 n0]. simpl in *. subst.
    destruct Hloop as [? ? HnF ? ? ? ? ? ? ?]. simpl in *.
    constructor; simpl; auto.
Qed.

Lemma Matrix_init_well_formed rows m :
  Matrix_init' rows = Ok m -> well_formed m.
Proof.
  intros H. apply Matrix_init_Ok in H.
  destruct H as [header [data [_ [Hinv _]]]].
  destruct Hinv as [? ? ? ? ? ? ? ? ? ?]. simpl in *.
  constructor; assumption.
Qed.
End ConstructorRows.

(** * The queries *)

Section Queries.
Variable libm_log10 : float -> float.
Variable str_of_float : float -> string.

Local Abbreviation scaledvalues' := (scaledvalues libm_log10).
Local Abbreviation distanceMatrix' := (distanceMatrix libm_log10).
Local Abbreviation upperDiagonal' := (upperDiagonal libm_log10).
Local Abbreviation upperDiagonalAsXML' :=
  (upperDiagonalAsXML libm_log10 str_of_float).
Local Abbreviation allFeaturesAsXML' :=
  (allFeaturesAsXML libm_log10 str_of_float).
Local Abbreviation scaled_value' := (scaled_value libm_log10).

Lemma log_loop (column : list float) :
  forall acc,
    foldM (log_value libm_log10) column acc
    = Ok (acc ++ map (scaled_value' true) column).
Proof.
  induction column as [|v column IH]; intros acc; simpl.
  - now rewrite app_nil_r.
  - unfold log_value at 1, math_log10, scaled_value.
    destruct (v <=? 0)%float; simpl; rewrite IH, <- app_assoc; reflexivity.
Qed.

Lemma scaledvalues_found (m : Matrix) f logged column :
  d_find (features m) f = Some column ->
  scaledvalues' m f logged = Ok (map (scaled_value' logged) column).
Proof.
  intros H. unfold scaledvalues, d_get. rewrite H.
  destruct logged; simpl.
  - apply log_loop.
  - now rewrite map_id.
Qed.

Lemma scaledvalues_missing (m : Matrix) f logged :
  d_find (features m) f = None ->
  scaledvalues' m f logged = Raise (KeyError f).
Proof.
  intros H. unfold scaledvalues, d_get. rewrite H.
  now destruct logged.
Qed.

Lemma column_length (m : Matrix) f column :
  well_formed m -> d_find (features m) f = Some column ->
  List.length column = List.length (taxa m).
Proof.
  intros Hwf H. pose proof (wf_column_length m Hwf) as Hall.
  rewrite Forall_forall in Hall. apply Hall.
  clear Hall Hwf. induction (features m) as [|[k v] F IH]; simpl in *.
  - discriminate.
  - destruct (String.eqb k f); [injection H as <-; now left|].
    right. now apply IH.
Qed.

(** The two nested loops of [distanceMatrix] over a zip of distinct names
    with as many values. *)
Lemma difference_loops (ks : list string) (scaled : list float) :
  NoDup ks -> List.length ks = List.length scaled ->
  mapM (fun k1 =>
          mapM (fun k2 =>
                  v1 <- d_get (dict_of (combine ks scaled)) k1 ;;
                  v2 <- d_get (dict_of (combine ks scaled)) k2 ;;
                  Ok (v1 - v2)%float) ks) ks
  = Ok (differences scaled).
Proof.
  intros Hnd Hlen.
  rewrite dict_of_NoDup by (now rewrite keys_combine).
  assert (Hget : forall i k v, nth_error ks i = Some k ->
                               nth_error scaled i = Some v ->
                               d_get (combine ks scaled) k = Ok v).
  { intros i k v Hk Hv. unfold d_get.
    now rewrite (d_find_combine ks scaled i k Hnd Hlen Hk), Hv. }
  unfold differences. rewrite <- mapM_pure.
  apply mapM_along; [assumption|].
  intros i k1 v1 Hk1 Hv1. rewrite <- mapM_pure.
  apply mapM_along; [assumption|].
  intros j k2 v2 Hk2 Hv2.
  now rewrite (Hget i k1 v1), (Hget j k2 v2).
Qed.

Lemma distanceMatrix_found (m : Matrix) f logged column :
  well_formed m -> d_find (features m) f = Some column ->
  distanceMatrix' m f logged
  = Ok (differences (map (scaled_value' logged) column)).
Proof.
  intros Hwf H. unfold distanceMatrix.
  rewrite (scaledvalues_found m f logged column H). simpl.
  apply difference_loops; [apply Hwf|].
  rewrite keys_length, length_map. symmetry.
  now apply column_length with (f := f).
Qed.

Lemma distanceMatrix_missing (m : Matrix) f logged :
  d_find (features m) f = None ->
  distanceMatrix' m f logged = Raise (KeyError f).
Proof.
  intros H. unfold distanceMatrix.
  now rewrite scaledvalues_missing.
Qed.

Lemma differences_length scaled :
  List.length (differences scaled) = List.length scaled.
Proof. unfold differences. apply length_map. Qed.

Lemma differences_rows scaled :
  Forall (fun row => List.length row = List.length scaled)
         (differences scaled).
Proof.
  unfold differences. apply Forall_forall. intros row Hin.
  apply in_map_iff in Hin. destruct Hin as [v [<- _]]. apply length_map.
Qed.

Lemma differences_entry scaled i j :
  i < List.length scaled -> j < List.length scaled ->
  entry (differences scaled) i j
  = (nth i scaled 0 - nth j scaled 0)%float.
Proof.
  intros Hi Hj. unfold entry, differences.
  rewrite (nth_indep _ [] (map (fun v2 => (0 - v2)%float) scaled))
    by (now rewrite length_map).
  rewrite (map_nth (fun v1 => map (fun v2 => (v1 - v2)%float) scaled)).
  rewrite (nth_indep _ 0%float (nth i scaled 0 - 0)%float)
    by (now rewrite length_map).
  now rewrite (map_nth (fun v2 => (nth i scaled 0 - v2)%float)).
Qed.

Lemma getitem_nth {A : Type} (xs : list A) (i : nat) (d : A) :
  i < List.length xs -> getitem xs i = Ok (nth i xs d).
Proof.
  intros Hi. unfold getitem. now rewrite (nth_error_nth' xs d Hi).
Qed.

(** The inner loop of [upperDiagonal], on a square matrix. *)
Lemma upper_inner_loop (dm : list (list float)) (n row : nat) :
  List.length dm = n ->
  Forall (fun r => List.length r = n) dm ->
  row < n ->
  forall cols acc,
    Forall (fun col => col < n) cols ->
    foldM (fun result col =>
             dm_row <- getitem dm row ;;
             x <- getitem dm_row col ;;
             Ok (result ++ [x])) cols acc
    = Ok (acc ++ map (fun col => entry dm row col) cols).
Proof.
  intros Hn Hrows Hrow.
  match goal with |- forall cols acc, _ -> foldM ?b _ _ = _ =>
    set (body := b) end.
  induction cols as [|col cols IH]; intros acc Hcols; cbn [foldM map].
  - now rewrite app_nil_r.
  - inversion Hcols as [|? ? Hcol Hcols']; subst.
    unfold body at 1.
    rewrite (getitem_nth dm row []) by lia. cbn [bind].
    rewrite (getitem_nth (nth row dm []) col 0%float).
    + cbn [bind]. rewrite IH by assumption. now rewrite <- app_assoc.
    + rewrite Forall_forall in Hrows. rewrite Hrows; [assumption|].
      apply nth_In. lia.
Qed.

Lemma seq_bounded (a k n : nat) :
  a + k <= n -> Forall (fun i => i < n) (seq a k).
Proof.
  intros H. apply Forall_forall. intros i Hi. apply in_seq in Hi. lia.
Qed.

(** Both loops of [upperDiagonal], on a square matrix. *)
Lemma upper_loops (dm : list (list float)) (n : nat) :
  List.length dm = n ->
  Forall (fun r => List.length r = n) dm ->
  forall rows acc,
    Forall (fun row => row < n) rows ->
    foldM (fun result row =>
             foldM (fun result col =>
                      dm_row <- getitem dm row ;;
                      x <- getitem dm_row col ;;
                      Ok (result ++ [x]))
                   (range (row + 1) n) result) rows acc
    = Ok (acc ++ flat_map (fun row => map (fun col => entry dm row col)
                                          (seq (row + 1) (n - (row + 1))))
                          rows).
Proof.
  intros Hn Hrows.
  match goal with |- forall rows acc, _ -> foldM ?b _ _ = _ =>
    set (body := b) end.
  induction rows as [|row rows IH]; intros acc Hbound; cbn [foldM flat_map].
  - now rewrite app_nil_r.
  - inversion Hbound as [|? ? Hrow Hbound']; subst.
    unfold body at 1. unfold range.
    rewrite (upper_inner_loop dm (List.length dm) row eq_refl Hrows Hrow)
      by (apply seq_bounded; lia).
    cbn [bind]. rewrite IH by assumption. now rewrite <- app_assoc.
Qed.

Lemma upperDiagonal_found (m : Matrix) f logged column :
  well_formed m -> d_find (features m) f = Some column ->
  upperDiagonal' m f logged
  = Ok (upper_triangle (differences (map (scaled_value' logged) column))
                       (List.length (taxa m))).
Proof.
  intros Hwf H. unfold upperDiagonal.
  rewrite (distanceMatrix_found m f logged column Hwf H). simpl.
  pose proof (column_length m f column Hwf H) as Hlen.
  unfold range. rewrite Nat.sub_0_r.
  rewrite (upper_loops _ (List.length (taxa m))).
  - reflexivity.
  - now rewrite differences_length, length_map.
  - rewrite <- Hlen, <- (length_map (scaled_value' logged) column).
    apply differences_rows.
  - apply seq_bounded. lia.
Qed.

Lemma upperDiagonal_missing (m : Matrix) f logged :
  d_find (features m) f = None ->
  upperDiagonal' m f logged = Raise (KeyError f).
Proof.
  intros H. unfold upperDiagonal.
  now rewrite distanceMatrix_missing.
Qed.

(** The cells right of the diagonal in row [i] of the row-major order. *)
Lemma filter_above (i n : nat) :
  filter (fun j => Nat.ltb i j) (seq 0 n) = seq (i + 1) (n - (i + 1)).
Proof.
  induction n as [|n IH]; [reflexivity|].
  rewrite seq_S, filter_app, IH. cbn [filter Nat.add].
  destruct (Nat.ltb_spec i n) as [Hlt|Hge].
  - replace (S n - (i + 1)) with (S (n - (i + 1))) by lia.
    rewrite seq_S. do 2 f_equal. lia.
  - rewrite app_nil_r. replace (n - (i + 1)) with 0 by lia.
    now replace (S n - (i + 1)) with 0 by lia.
Qed.

Lemma filter_row (i : nat) (cols : list nat) :
  filter (fun ij : nat * nat => Nat.ltb (fst ij) (snd ij))
         (map (fun j => (i, j)) cols)
  = map (fun j => (i, j)) (filter (fun j => Nat.ltb i j) cols).
Proof.
  induction cols as [|j cols IH]; simpl; [reflexivity|].
  destruct (Nat.ltb i j); simpl; now rewrite IH.
Qed.

(** The nested order of the loops is the row-major order of the cells
    above the diagonal. *)
Lemma upper_triangle_above_diagonal (dm : list (list float)) (n : nat) :
  upper_triangle dm n = above_diagonal dm n.
Proof.
  unfold upper_triangle, above_diagonal.
  generalize (seq 0 n) at 1 2 as rows.
  induction rows as [|i rows IH]; simpl; [reflexivity|].
  rewrite filter_app, map_app, <- IH. f_equal.
  rewrite filter_row, map_map, filter_above. reflexivity.
Qed.

Lemma triangle_count (n : nat) :
  forall k a, a + k = n ->
    2 * List.length
          (flat_map (fun row => seq (row + 1) (n - (row + 1))) (seq a k))
    = k * (k - 1).
Proof.
  induction k as [|k IH]; intros a Hak; simpl; [reflexivity|].
  rewrite length_app, length_seq.
  specialize (IH (S a) ltac:(lia)). nia.
Qed.

Lemma upper_triangle_length (dm : list (list float)) (n : nat) :
  List.length (upper_triangle dm n) = n * (n - 1) / 2.
Proof.
  unfold upper_triangle.
  assert (H : List.length
                (flat_map (fun row => map (fun col => entry dm row col)
                                          (seq (row + 1) (n - (row + 1))))
                          (seq 0 n))
              = List.length
                  (flat_map (fun row => seq (row + 1) (n - (row + 1)))
                            (seq 0 n))).
  { generalize (seq 0 n) as rows.
    induction rows as [|r rows IH]; simpl; [reflexivity|].
    now rewrite !length_app, length_map, IH. }
  rewrite H. pose proof (triangle_count n n 0 eq_refl) as Hc.
  apply Nat.div_unique_exact; lia.
Qed.

(** *** The XML trees *)

Lemma value_loop (texts : list string) :
  forall tag text children,
    fold_left (fun result value => SubElement_text result "value" value)
              texts (Node tag text children)
    = Node tag text
           (children ++ map (fun t => Node "value" (Some t) []) texts).
Proof.
  induction texts as [|t texts IH]; intros tag text children; simpl.
  - now rewrite app_nil_r.
  - rewrite IH. now rewrite <- app_assoc.
Qed.

Lemma upperDiagonalAsXML_eq (m : Matrix) f elementName logged ud :
  upperDiagonal' m f logged = Ok ud ->
  upperDiagonalAsXML' m f elementName logged
  = Ok (Node elementName None (value_nodes str_of_float ud)).
Proof.
  intros H. unfold upperDiagonalAsXML. rewrite H. simpl.
  rewrite value_loop. simpl. unfold value_nodes. now rewrite map_map.
Qed.

Lemma upperDiagonalAsXML_raise (m : Matrix) f elementName logged e :
  upperDiagonal' m f logged = Raise e ->
  upperDiagonalAsXML' m f elementName logged = Raise e.
Proof.
  intros H. unfold upperDiagonalAsXML. now rewrite H.
Qed.

(** The loop of [allFeaturesAsXML] over feature names whose upper
    diagonals are [uds]. *)
Lemma feature_loop (m : Matrix) logged (names : list string) :
  forall (uds : list (list float)) tag text children,
    Forall2 (fun f ud => upperDiagonal' m f logged = Ok ud) names uds ->
    foldM (fun result featureName =>
             let result1 := append result (Comment featureName) in
             child <- upperDiagonalAsXML' m featureName "feature" logged ;;
             Ok (append result1 child))
          names (Node tag text children)
    = Ok (Node tag text
            (children ++
             flat_map (fun p => [Comment (fst p);
                                 Node "feature" None
                                      (value_nodes str_of_float (snd p))])
                      (combine names uds))).
Proof.
  induction names as [|f names IH]; intros uds tag text children Hall;
    inversion Hall as [|? ud ? uds' Hf Hall']; subst; simpl.
  - now rewrite app_nil_r.
  - rewrite (upperDiagonalAsXML_eq m f "feature" logged ud Hf). simpl.
    rewrite IH with (uds := uds') by assumption.
    now rewrite <- !app_assoc.
Qed.
End Queries.

(** * Facts about binary64 subtraction and comparison *)

Section SpecFloatFacts.
Variables p e : Z.

Lemma iter_pos_invariant {A : Type} (f : A -> A) (P : A -> Prop) :
  (forall x, P x -> P (f x)) ->
  forall n x, P x -> P (iter_pos f n x).
Proof.
  intros Hf. induction n as [n IH|n IH|]; intros x Hx; simpl; auto.
Qed.

Lemma shr_1_nonneg mrs : (0 <= shr_m mrs)%Z -> (0 <= shr_m (shr_1 mrs))%Z.
Proof.
  destruct mrs as [m r s]. simpl.
  destruct m as [|[q|q|]|[q|q|]]; simpl; lia.
Qed.

Lemma shr_fexp_nonneg m ex l :
  (0 <= m)%Z -> (0 <= shr_m (fst (shr_fexp p e m ex l)))%Z.
Proof.
  intros Hm. unfold shr_fexp, shr.
  assert (H0 : (0 <= shr_m (shr_record_of_loc m l))%Z)
    by (destruct l as [|[| |]]; simpl; exact Hm).
  destruct (fexp p e (Zdigits2 m + ex) - ex)%Z; simpl; auto.
  apply iter_pos_invariant; [apply shr_1_nonneg | exact H0].
Qed.

Lemma round_nearest_even_nonneg mx lx :
  (0 <= mx)%Z -> (0 <= round_nearest_even mx lx)%Z.
Proof.
  intros H. destruct lx as [|[| |]]; simpl; try lia.
  destruct (Z.even mx); lia.
Qed.

Lemma binary_round_aux_not_nan s mx ex lx :
  (0 <= mx)%Z -> binary_round_aux p e s mx ex lx <> S754_nan.
Proof.
  intros Hm. unfold binary_round_aux.
  pose proof (shr_fexp_nonneg mx ex lx Hm) as H1.
  destruct (shr_fexp p e mx ex lx) as [mrs' e']. simpl in H1.
  pose proof (shr_fexp_nonneg
                (round_nearest_even (shr_m mrs') (loc_of_shr_record mrs'))
                e' loc_Exact
                (round_nearest_even_nonneg _ _ H1)) as H2.
  destruct (shr_fexp p e _ e' loc_Exact) as [mrs'' e'']. simpl in H2.
  destruct (shr_m mrs'') as [|q|q]; try discriminate; [|lia].
  destruct (e'' <=? e - p)%Z; discriminate.
Qed.

Lemma binary_round_not_nan s m ex : binary_round p e s m ex <> S754_nan.
Proof.
  unfold binary_round. destruct (shl_align m ex _) as [mz ez].
  apply binary_round_aux_not_nan. lia.
Qed.

Lemma binary_round_opp s m ex :
  SFopp (binary_round p e s m ex) = binary_round p e (negb s) m ex.
Proof.
  unfold binary_round. destruct (shl_align m ex _) as [mz ez].
  unfold binary_round_aux.
  destruct (shr_fexp p e (Z.pos mz) ez loc_Exact) as [mrs' e'].
  destruct (shr_fexp p e _ e' loc_Exact) as [mrs'' e''].
  destruct (shr_m mrs''); try reflexivity.
  destruct (e'' <=? e - p)%Z; reflexivity.
Qed.

Lemma binary_normalize_not_nan m ex sz :
  binary_normalize p e m ex sz <> S754_nan.
Proof.
  destruct m; simpl; [discriminate | apply binary_round_not_nan ..].
Qed.

(** Swapping the operands of a subtraction negates the result, except
    that both differences of equal finite numbers are [+0]. *)
Lemma SFsub_swap a b :
  SFsub p e a b = SFopp (SFsub p e b a) \/
  (SFsub p e a b = S754_zero false /\ SFsub p e b a = S754_zero false).
Proof.
  destruct a as [sa|sa| |sa ma ea], b as [sb|sb| |sb mb eb];
    try (left; reflexivity);
    try (left; simpl; now rewrite negb_involutive);
    try (destruct sa, sb; simpl; auto; fail).
  unfold SFsub. rewrite (Z.min_comm eb ea).
    set (A := cond_Zopp sa _). set (B := cond_Zopp sb _).
    replace (B - A)%Z with (- (A - B))%Z by lia.
  destruct (A - B)%Z as [|d|d]; simpl.
  - right. split; reflexivity.
  - left. now rewrite binary_round_opp.
  - left. now rewrite binary_round_opp.
Qed.

Lemma SFsub_finite_not_nan a b :
  SF_is_finite a = true -> SF_is_finite b = true ->
  SFsub p e a b <> S754_nan.
Proof.
  intros Ha Hb.
  destruct a as [sa|sa| |sa ma ea]; try discriminate;
    destruct b as [sb|sb| |sb mb eb]; try discriminate; simpl;
    try discriminate.
  - destruct sa, sb; discriminate.
  - apply binary_normalize_not_nan.
Qed.

Lemma SFsub_self a :
  SFsub p e a a = if SF_is_finite a then S754_zero false else S754_nan.
Proof.
  destruct a as [sa|sa| |sa ma ea]; simpl; try reflexivity.
  - now destruct sa.
  - now destruct sa.
  - now rewrite Z.sub_diag.
Qed.

Lemma SFeqb_refl a : a <> S754_nan -> SFeqb a a = true.
Proof.
  intros Ha. unfold SFeqb. destruct a as [s|s| |s m ex]; simpl;
    try congruence; destruct s; try reflexivity;
    rewrite Z.compare_refl, Pos.compare_cont_refl; reflexivity.
Qed.
End SpecFloatFacts.

Section PrimFloatFacts.
Local Open Scope float_scope.

Lemma Prim2SF_zero : Prim2SF 0 = S754_zero false.
Proof. reflexivity. Qed.

Lemma Prim2SF_infinity : Prim2SF infinity = S754_infinity false.
Proof. reflexivity. Qed.

Lemma is_nan_spec x : is_nan x = negb (SFeqb (Prim2SF x) (Prim2SF x)).
Proof. unfold is_nan. now rewrite eqb_spec. Qed.

Lemma is_finite_spec x : is_finite x = SF_is_finite (Prim2SF x).
Proof.
  unfold is_finite, is_infinity. rewrite is_nan_spec, eqb_spec, abs_spec.
  rewrite Prim2SF_infinity.
  destruct (Prim2SF x) as [s|s| |s m ex] eqn:E; try reflexivity.
  - now destruct s.
  - rewrite SFeqb_refl by discriminate. reflexivity.
Qed.

(** [x - x == 0.0] exactly for the finite [x]. *)
Lemma sub_diag x : (x - x =? 0) = is_finite x.
Proof.
  rewrite eqb_spec, sub_spec, is_finite_spec, Prim2SF_zero.
  unfold SF64sub. rewrite SFsub_self.
  now destruct (SF_is_finite (Prim2SF x)).
Qed.

Lemma sub_diag_zero x : is_finite x = true -> x - x = 0.
Proof.
  intros H. apply Prim2SF_inj. rewrite sub_spec, Prim2SF_zero.
  unfold SF64sub. rewrite SFsub_self. rewrite is_finite_spec in H.
  now rewrite H.
Qed.

(** [x - y == -(y - x)] exactly when [x - y] is a number. *)
Lemma sub_antisym x y : (x - y =? - (y - x)) = negb (is_nan (x - y)).
Proof.
  rewrite is_nan_spec, negb_involutive, eqb_spec, opp_spec, !sub_spec.
  unfold SF64sub.
  destruct (SFsub_swap prec emax (Prim2SF x) (Prim2SF y)) as [H|[H1 H2]].
  - now rewrite <- H.
  - now rewrite H1, H2.
Qed.

Lemma sub_finite_is_number x y :
  is_finite x = true -> is_finite y = true -> is_nan (x - y) = false.
Proof.
  rewrite !is_finite_spec, is_nan_spec, sub_spec. intros Hx Hy.
  rewrite SFeqb_refl; [reflexivity|].
  now apply SFsub_finite_not_nan.
Qed.

Lemma positive_not_le_zero x : (0 <? x) = true -> (x <=? 0) = false.
Proof.
  rewrite ltb_spec, leb_spec, Prim2SF_zero. unfold SFltb, SFleb.
  destruct (Prim2SF x) as [s|s| |s m ex]; simpl; try discriminate;
    destruct s; simpl; congruence.
Qed.
End PrimFloatFacts.

(** * Further facts about dictionaries and the constructor *)

Lemma nth_error_values {V : Type} (d : dict V) i k v dflt :
  nth_error d i = Some (k, v) ->
  i < List.length d /\ nth i (values d) dflt = v /\ In (k, v) d.
Proof.
  intros H. split; [|split].
  - apply nth_error_Some. congruence.
  - unfold values. apply nth_error_nth.
    rewrite nth_error_map, H. reflexivity.
  - eapply nth_error_In; eauto.
Qed.

Lemma In_values {V : Type} (d : dict V) k v :
  In (k, v) d -> In v (values d).
Proof. intros H. unfold values. now apply (in_map snd) in H. Qed.

Lemma d_find_nth_error {V : Type} (d : dict V) j k v :
  NoDup (keys d) -> nth_error d j = Some (k, v) -> d_find d k = Some v.
Proof.
  revert j. induction d as [|[k0 v0] d IH]; intros j Hnd Hj.
  - destruct j; discriminate.
  - simpl in Hnd. inversion Hnd as [|? ? Hnotin Hnd']; subst.
    destruct j as [|j]; simpl in *.
    + injection Hj as -> ->. now rewrite String.eqb_refl.
    + destruct (String.eqb_spec k0 k) as [->|_].
      * exfalso. apply Hnotin. apply nth_error_In in Hj.
        now apply (in_map fst) in Hj.
      * eapply IH; eauto.
Qed.

Lemma d_find_In {V : Type} (d : dict V) k :
  In k (keys d) -> exists v, d_find d k = Some v.
Proof.
  intros H. destruct (d_find d k) as [v|] eqn:E; [now exists v|].
  apply d_find_None in E. contradiction.
Qed.

(** The two mappings of a constructed matrix are views of one grid. *)
Lemma Matrix_init_grid {str_strip : StrStrip} float_of_str repr rows m :
  Matrix_init float_of_str repr rows = Ok m ->
  forall i j tname vs fname col,
    nth_error (taxa m) i = Some (tname, vs) ->
    nth_error (features m) j = Some (fname, col) ->
    exists v, nth_error vs j = Some v /\ nth_error col i = Some v.
Proof.
  intros H. apply Matrix_init_Ok in H.
  destruct H as [header [data [-> [Hinv _]]]].
  destruct Hinv as [_ _ _ _ _ _ _ Hrl Hcl Hgrid]. simpl in *.
  rewrite Forall_forall in Hrl, Hcl.
  intros i j tname vs fname col Ht Hf.
  destruct (nth_error_values _ _ _ _ [] Ht) as [Hi [Hvs Hint]].
  destruct (nth_error_values _ _ _ _ [] Hf) as [Hj [Hc Hinf]].
  specialize (Hgrid i j Hi Hj). rewrite Hvs, Hc in Hgrid.
  exists (nth j vs 0%float). split.
  - apply nth_error_nth'. rewrite (Hrl vs); [exact Hj|].
    eapply In_values; eauto.
  - rewrite Hgrid. apply nth_error_nth'. rewrite (Hcl col); [exact Hi|].
    eapply In_values; eauto.
Qed.

Lemma foldM_app {S X : Type} (body : S -> X -> result S) (xs ys : list X)
    (s : S) :
  foldM body (xs ++ ys) s = s' <- foldM body xs s ;; foldM body ys s'.
Proof.
  revert s. induction xs as [|x xs IH]; intros s; simpl; [reflexivity|].
  destruct (body s x); simpl; auto.
Qed.

Section ConstructorErrors.
Context {str_strip : StrStrip}.
Variable float_of_str : string -> option float.
Variable repr : string -> string.

Local Abbreviation py_float' := (py_float float_of_str repr).
Local Abbreviation init_row' := (init_row float_of_str repr).
Local Abbreviation init_loop' := (init_loop float_of_str repr).
Local Abbreviation Matrix_init' := (Matrix_init float_of_str repr).
Local Abbreviation loop_invariant' := (loop_invariant float_of_str repr).

(** The loop over a prefix of the rows, then over the rest. *)
Lemma init_loop_split (rows rest : list (list string)) (st : locals) :
  init_loop' rows = Ok st ->
  init_loop' (rows ++ rest)
  = foldM init_row' (enumerate rest (1 + len rows)) st.
Proof.
  intros H. unfold init_loop in *.
  now rewrite enumerate_app, foldM_app, H.
Qed.

Lemma row_rejected header done st (row : Z) (fields : list string) :
  loop_invariant' header done st ->
  (2 <= row)%Z ->
  (len fields - 1)%Z <> len (l_features st) ->
  init_row' st (row, fields)
  = Raise (ValueError (msg_row_fields row (len fields - 1)
                                      (len (l_features st)))).
Proof.
  intros Hinv Hrow Hne.
  rewrite init_row_data;
    [| apply Z.eqb_neq; lia | apply Hinv | apply Hinv].
  apply Z.eqb_neq in Hne. now rewrite Hne.
Qed.

Lemma declare_loop_raise (names : list string) :
  forall acc e,
    foldM (declare_feature repr) names acc = Raise e ->
    exists name, e = ValueError (msg_feature_repeated repr name).
Proof.
  induction names as [|n names IH]; intros acc e H; simpl in H;
    [discriminate|].
  unfold declare_feature at 1 in H.
  destruct (d_mem acc n); simpl in H.
  - injection H as <-. now exists n.
  - eapply IH; eauto.
Qed.

Lemma mapM_py_float_raise (cells : list string) e :
  mapM py_float' cells = Raise e ->
  exists field, e = ValueError (msg_float repr field).
Proof.
  induction cells as [|c cells IH]; simpl; intros H; [discriminate|].
  unfold py_float at 1 in H.
  destruct (float_of_str c); simpl in H.
  - destruct (mapM py_float' cells); simpl in H; [discriminate|].
    injection H as <-. now apply IH.
  - injection H as <-. now exists c.
Qed.

Lemma data_rows_raise header (data : list (list string)) :
  forall done st k e,
    (2 <= k)%Z ->
    loop_invariant' header done st ->
    foldM init_row' (enumerate data k) st = Raise e ->
    loop_error repr e.
Proof.
  induction data as [|fields data IH]; intros done st k e Hk Hinv H;
    cbn [enumerate foldM] in H; [discriminate|].
  destruct (init_row' st (k, fields)) as [st1|e1] eqn:Hrow; simpl in H.
  - pose proof (invariant_data_rows float_of_str repr header [fields] done
                  st st1 k Hk Hinv) as Hinv1.
    cbn [enumerate foldM] in Hinv1. rewrite Hrow in Hinv1.
    eapply IH; [| apply Hinv1; reflexivity | exact H]. lia.
  - injection H as <-.
    rewrite init_row_data in Hrow;
      [| apply Z.eqb_neq; lia | apply Hinv | apply Hinv].
    destruct (negb _) in Hrow.
    { injection Hrow as <-. right. left. eauto. }
    destruct (d_mem _ _) in Hrow.
    { injection Hrow as <-. right. right. left. eauto. }
    destruct (mapM py_float' (slice_from_1 fields)) eqn:Hws; simpl in Hrow;
      [discriminate|].
    injection Hrow as <-. right. right. right.
    eapply mapM_py_float_raise; eauto.
Qed.

Lemma init_loop_raise (rows : list (list string)) e :
  init_loop' rows = Raise e -> loop_error repr e.
Proof.
  destruct rows as [|header data]; [discriminate|].
  unfold init_loop. intros H.
  change (foldM init_row' ((1%Z, header) :: enumerate data 2)
                (mkLocals [] [] None) = Raise e) in H.
  cbn [foldM] in H. rewrite init_row_header in H.
  destruct (foldM (declare_feature repr) _ []) as [F'|e1] eqn:Hhead;
    simpl in H.
  - apply invariant_header with (float_of_str := float_of_str) in Hhead.
    eapply data_rows_raise; [| exact Hhead | exact H]. lia.
  - injection H as <-. left. eapply declare_loop_raise; eauto.
Qed.

Lemma loop_error_not_no_data e :
  loop_error repr e -> e <> ValueError msg_no_data.
Proof.
  intros [[n ->]|[[r [x [y ->]]]|[[n ->]|[c ->]]]]; intros [= H];
    discriminate H.
Qed.

(** With no feature declared, rows of a single cell with distinct names
    pass every check. *)
Lemma single_cell_rows (data : list (list string)) :
  forall T k,
    (2 <= k)%Z ->
    Forall (fun fields => List.length fields = 1) data ->
    NoDup (keys T ++ map taxon_name data) ->
    foldM init_row' (enumerate data k) (mkLocals T [] (Some 0%Z))
    = Ok (mkLocals (T ++ map (fun fields => (taxon_name fields, [])) data)
                   [] (Some 0%Z)).
Proof.
  induction data as [|fields data IH]; intros T k Hk Hall Hnd;
    cbn [enumerate foldM map].
  - now rewrite app_nil_r.
  - inversion Hall as [|? ? Hlen Hall']; subst.
    rewrite init_row_data; simpl;
      [| apply Z.eqb_neq; lia | reflexivity | constructor].
    assert (Hz : (len fields - 1 =? len (@nil (string * list float)))%Z
                 = true).
    { apply Z.eqb_eq. unfold len. rewrite Hlen. reflexivity. }
    rewrite Hz. simpl.
    assert (Hnew : ~ In (taxon_name fields) (keys T)).
    { apply NoDup_remove_2 in Hnd. intros Hin. apply Hnd.
      apply in_or_app. now left. }
    apply d_mem_false in Hnew. rewrite Hnew.
    destruct fields as [|f0 [|f1 rest]]; try discriminate. simpl.
    rewrite IH; [now rewrite <- app_assoc | lia | assumption |].
    rewrite keys_app. simpl. rewrite <- app_assoc. exact Hnd.
Qed.
End ConstructorErrors.

Lemma Forall2_map_right {A B : Type} (P : A -> B -> Prop) (g : A -> B)
    (l : list A) :
  (forall x, In x l -> P x (g x)) -> Forall2 P l (map g l).
Proof.
  induction l as [|x l IH]; intros H; simpl; constructor.
  - apply H. now left.
  - apply IH. intros y Hy. apply H. now right.
Qed.

Lemma upperDiagonal_all libm_log10 (m : Matrix) logged :
  well_formed m ->
  Forall2 (fun f ud => upperDiagonal libm_log10 m f logged = Ok ud)
          (keys (features m))
          (map (upper_values libm_log10 m logged) (keys (features m))).
Proof.
  intros Hwf. apply Forall2_map_right. intros f Hf.
  destruct (d_find_In _ _ Hf) as [column Hfind].
  unfold upper_values. rewrite Hfind. now apply upperDiagonal_found.
Qed.

(** * The properties of the specification *)

(** From a constructed matrix [Hm] and a declared feature [Hf]: the matrix
    is well formed, and the feature has a column with one value per
    taxon. *)
Ltac declared_feature Hm Hf Hwf column Hfind Hlen :=
  pose proof (Matrix_init_well_formed _ _ _ _ Hm) as Hwf;
  destruct (d_find_In _ _ Hf) as [column Hfind];
  pose proof (column_length _ _ column Hwf Hfind) as Hlen.

Section Specification.
Context {str_strip : StrStrip}.
Variable float_of_str : string -> option float.
Variable repr : string -> string.
Variable libm_log10 : float -> float.
Variable str_of_float : float -> string.

Local Abbreviation py_float' := (py_float float_of_str repr).
Local Abbreviation init_loop' := (init_loop float_of_str repr).
Local Abbreviation Matrix_init' := (Matrix_init float_of_str repr).
Local Abbreviation scaledvalues' := (scaledvalues libm_log10).
Local Abbreviation distanceMatrix' := (distanceMatrix libm_log10).
Local Abbreviation upperDiagonal' := (upperDiagonal libm_log10).
Local Abbreviation upperDiagonalAsXML' :=
  (upperDiagonalAsXML libm_log10 str_of_float).
Local Abbreviation allFeaturesAsXML' :=
  (allFeaturesAsXML libm_log10 str_of_float).
Local Abbreviation scaled_value' := (scaled_value libm_log10).

(** C1. For a constructed matrix and a declared feature, [distanceMatrix]
    returns a square matrix with one row and one column per taxon, in the
    order of [taxa]; its entry [i][j] is the scaled value of taxon [i] minus
    that of taxon [j], the scaled value being the raw value when [logged] is
    false, and the raw value of taxon [i] being the value its row holds for
    the feature.  On the rows ["Ignored, A, B"], ["name1, 3, 4"],
    ["name2, 5, 6"], with a [strip] that removes the blank before a name
    and a [float] that reads the four numerals,
    [distanceMatrix('A', logged=False)] is [[0.0, -2.0], [2.0, 0.0]]. *)
Theorem C1_distanceMatrix_entries :
  (forall (rows : list (list string)) (m : Matrix) (f : string)
          (logged : bool),
      Matrix_init' rows = Ok m ->
      In f (keys (features m)) ->
      exists column dm,
        d_get (features m) f = Ok column /\
        distanceMatrix' m f logged = Ok dm /\
        List.length dm = List.length (taxa m) /\
        Forall (fun row => List.length row = List.length (taxa m)) dm /\
        (forall i j, i < List.length (taxa m) -> j < List.length (taxa m) ->
           exists vi vj row,
             nth_error column i = Some vi /\ nth_error column j = Some vj /\
             nth_error dm i = Some row /\
             nth_error row j
             = Some (scaled_value' logged vi - scaled_value' logged vj)%float) /\
        (forall v, scaled_value' false v = v) /\
        (forall i tname vs,
            nth_error (taxa m) i = Some (tname, vs) ->
            exists jf v,
              nth_error (keys (features m)) jf = Some f /\
              nth_error vs jf = Some v /\ nth_error column i = Some v)) /\
  (strip " A" = "A" -> strip " B" = "B" ->
   strip "name1" = "name1" -> strip "name2" = "name2" ->
   float_of_str " 3" = Some 3%float -> float_of_str " 4" = Some 4%float ->
   float_of_str " 5" = Some 5%float -> float_of_str " 6" = Some 6%float ->
   exists m,
     Matrix_init' csv_2x2 = Ok m /\
     keys (taxa m) = ["name1"; "name2"] /\
     distanceMatrix' m "A" false = Ok [[0; -2]; [2; 0]]%float).
Proof.
  split.
  - intros rows m f logged Hm Hf.
    declared_feature Hm Hf Hwf column Hfind Hlen.
    set (scaled := map (scaled_value' logged) column).
    assert (Hslen : List.length scaled = List.length (taxa m))
      by (unfold scaled; now rewrite length_map).
    exists column, (differences scaled).
    split; [unfold d_get; now rewrite Hfind|].
    split; [now apply distanceMatrix_found|].
    split; [now rewrite differences_length|].
    split; [rewrite <- Hslen; apply differences_rows|].
    split; [|split; [reflexivity|]].
    + intros i j Hi Hj.
      destruct (nth_error column i) as [vi|] eqn:Hvi;
        [|apply nth_error_None in Hvi; lia].
      destruct (nth_error column j) as [vj|] eqn:Hvj;
        [|apply nth_error_None in Hvj; lia].
      exists vi, vj,
        (map (fun v2 => (scaled_value' logged vi - v2)%float) scaled).
      repeat split.
      * unfold differences, scaled. now rewrite !nth_error_map, Hvi.
      * unfold scaled. now rewrite !nth_error_map, Hvj.
    + intros i tname vs Ht.
      destruct (In_nth_error _ _ Hf) as [jf Hjf].
      exists jf. unfold keys in Hjf. rewrite nth_error_map in Hjf.
      destruct (nth_error (features m) jf) as [[fname col]|] eqn:Hcol;
        [|discriminate].
      simpl in Hjf. injection Hjf as ->.
      pose proof (d_find_nth_error _ _ _ _ (wf_features_nodup m Hwf) Hcol)
        as Hfind'.
      rewrite Hfind in Hfind'. injection Hfind' as <-.
      destruct (Matrix_init_grid _ _ _ _ Hm _ _ _ _ _ _ Ht Hcol)
        as [v [Hv1 Hv2]].
      exists v. repeat split; auto.
      unfold keys. now rewrite nth_error_map, Hcol.
  - intros HA HB Hn1 Hn2 H3 H4 H5 H6.
    exists (mkMatrix [("name1", [3; 4]); ("name2", [5; 6])]%float
                     [("A", [3; 5]); ("B", [4; 6])]%float).
    split; [|split; reflexivity].
    unfold Matrix_init, init_loop, csv_2x2.
    repeat (progress (unfold py_float; simpl;
                      rewrite ?HA, ?HB, ?Hn1, ?Hn2, ?H3, ?H4, ?H5, ?H6)).
    reflexivity.
Qed.

(** C2. For a constructed matrix and a declared feature, [upperDiagonal]
    returns the entries of [distanceMatrix] strictly above the diagonal, in
    the order "for row in 0..n-1, for column in row+1..n-1", which is the
    row-major order of the cells above the diagonal; there are n(n-1)/2 of
    them, n being the number of taxa. *)
Theorem C2_upperDiagonal_row_major (rows : list (list string)) (m : Matrix)
    (f : string) (logged : bool) :
  Matrix_init' rows = Ok m ->
  In f (keys (features m)) ->
  exists dm ud,
    distanceMatrix' m f logged = Ok dm /\
    List.length dm = List.length (taxa m) /\
    Forall (fun row => List.length row = List.length (taxa m)) dm /\
    upperDiagonal' m f logged = Ok ud /\
    ud = upper_triangle dm (List.length (taxa m)) /\
    ud = above_diagonal dm (List.length (taxa m)) /\
    List.length ud
    = List.length (taxa m) * (List.length (taxa m) - 1) / 2.
Proof.
  intros Hm Hf.
  declared_feature Hm Hf Hwf column Hfind Hlen.
  set (scaled := map (scaled_value' logged) column).
  assert (Hslen : List.length scaled = List.length (taxa m))
    by (unfold scaled; now rewrite length_map).
  exists (differences scaled),
         (upper_triangle (differences scaled) (List.length (taxa m))).
  split; [now apply distanceMatrix_found|].
  split; [now rewrite differences_length|].
  split; [rewrite <- Hslen; apply differences_rows|].
  split; [now apply upperDiagonal_found|].
  split; [reflexivity|].
  split; [apply upper_triangle_above_diagonal | apply upper_triangle_length].
Qed.

(** C3. For a constructed matrix and a declared feature,
    [distanceMatrix(f, logged=True)] scales each raw value without raising:
    a positive raw value by the base-10 logarithm, a raw value that is at
    most zero (where [math.log10] raises its domain error) to 0.0, which is
    not NaN; the matrix holds the differences of the scaled values. *)
Theorem C3_logged_scaling (rows : list (list string)) (m : Matrix)
    (f : string) :
  Matrix_init' rows = Ok m ->
  In f (keys (features m)) ->
  exists column scaled,
    d_get (features m) f = Ok column /\
    scaledvalues' m f true = Ok scaled /\
    List.length column = List.length (taxa m) /\
    List.length scaled = List.length (taxa m) /\
    distanceMatrix' m f true = Ok (differences scaled) /\
    forall i v,
      nth_error column i = Some v ->
      ((0 <? v)%float = true ->
       math_log10 libm_log10 v = Ok (libm_log10 v) /\
       nth_error scaled i = Some (libm_log10 v)) /\
      ((v <=? 0)%float = true ->
       (exists msg, math_log10 libm_log10 v = Raise (ValueError msg)) /\
       nth_error scaled i = Some 0%float /\
       is_nan 0%float = false).
Proof.
  intros Hm Hf.
  declared_feature Hm Hf Hwf column Hfind Hlen.
  exists column, (map (scaled_value' true) column).
  split; [unfold d_get; now rewrite Hfind|].
  split; [now apply scaledvalues_found|].
  split; [assumption|].
  split; [now rewrite length_map|].
  split; [now apply distanceMatrix_found|].
  intros i v Hv. rewrite nth_error_map, Hv. unfold math_log10, scaled_value.
  simpl. split.
  - intros Hpos. now rewrite (positive_not_le_zero v Hpos).
  - intros Hle. rewrite Hle. repeat split; eauto.
Qed.

(** C4, as amended.  For a constructed matrix and a declared feature, the
    entries of [distanceMatrix] satisfy [dm[i][j] == -dm[j][i]] exactly
    when [dm[i][j]] is not NaN, and [dm[i][i] == 0.0] exactly when the
    scaled value of taxon [i] is finite; so both hold, and the diagonal
    entry is [+0.0] itself, whenever the scaled values of the taxa involved
    are finite. *)
Theorem C4_antisymmetry_on_finite_values (rows : list (list string))
    (m : Matrix) (f : string) (logged : bool) :
  Matrix_init' rows = Ok m ->
  In f (keys (features m)) ->
  exists scaled dm,
    scaledvalues' m f logged = Ok scaled /\
    distanceMatrix' m f logged = Ok dm /\
    List.length scaled = List.length (taxa m) /\
    forall i j, i < List.length (taxa m) -> j < List.length (taxa m) ->
      (entry dm i j =? - entry dm j i)%float = negb (is_nan (entry dm i j)) /\
      (entry dm i i =? 0)%float = is_finite (nth i scaled 0%float) /\
      (is_finite (nth i scaled 0%float) = true ->
       is_finite (nth j scaled 0%float) = true ->
       (entry dm i j =? - entry dm j i)%float = true /\
       entry dm i i = 0%float).
Proof.
  intros Hm Hf.
  declared_feature Hm Hf Hwf column Hfind Hlen.
  set (scaled := map (scaled_value' logged) column).
  assert (Hslen : List.length scaled = List.length (taxa m))
    by (unfold scaled; now rewrite length_map).
  exists scaled, (differences scaled).
  split; [now apply scaledvalues_found|].
  split; [now apply distanceMatrix_found|].
  split; [assumption|].
  intros i j Hi Hj. rewrite <- Hslen in Hi, Hj.
  rewrite !differences_entry by assumption.
  split; [apply sub_antisym|].
  split; [apply sub_diag|].
  intros Hfi Hfj. split.
  - rewrite sub_antisym. now rewrite sub_finite_is_number.
  - now apply sub_diag_zero.
Qed.

(** C5. Construction raises [ValueError('No input CSV data found.')] when
    the loop over the rows ends with no feature declared, as it does on
    empty input, and [ValueError('No taxa (rows) found in input CSV.')] when
    it ends with features declared and no taxon, as it does on a header row
    alone that declares distinct stripped feature names, such as
    ["A, B, C"]. *)
Theorem C5_no_data_no_taxa :
  (forall rows st,
      init_loop' rows = Ok st -> l_features st = [] ->
      Matrix_init' rows = Raise (ValueError "No input CSV data found.")) /\
  Matrix_init' [] = Raise (ValueError "No input CSV data found.") /\
  (forall rows st,
      init_loop' rows = Ok st -> l_features st <> [] -> l_taxa st = [] ->
      Matrix_init' rows
      = Raise (ValueError "No taxa (rows) found in input CSV.")) /\
  (forall header,
      slice_from_1 header <> [] ->
      NoDup (map strip (slice_from_1 header)) ->
      Matrix_init' [header]
      = Raise (ValueError "No taxa (rows) found in input CSV.")) /\
  (strip " B" <> strip " C" ->
   Matrix_init' csv_header_only
   = Raise (ValueError "No taxa (rows) found in input CSV.")).
Proof.
  assert (Hheader : forall header,
             slice_from_1 header <> [] ->
             NoDup (map strip (slice_from_1 header)) ->
             Matrix_init' [header]
             = Raise (ValueError "No taxa (rows) found in input CSV.")).
  { intros header Hne Hnd. unfold Matrix_init, init_loop.
    cbn [enumerate foldM]. rewrite init_row_header.
    rewrite (declare_loop_ok repr _ [] Hnd). simpl.
    destruct (slice_from_1 header); [contradiction|reflexivity]. }
  split; [|split; [reflexivity|split; [|split; [exact Hheader|]]]].
  - intros rows st Hloop HF. unfold Matrix_init. rewrite Hloop. simpl.
    now rewrite HF.
  - intros rows st Hloop HF HT. unfold Matrix_init. rewrite Hloop. simpl.
    rewrite HT. destruct (l_features st); [contradiction|reflexivity].
  - intros Hne. apply Hheader; [discriminate|].
    constructor; [|repeat constructor; simpl; tauto].
    simpl. intros [H|[]]. apply Hne. now symmetry.
Qed.

(** C6, as amended.  When the constructor reaches a data row (the header
    and the rows before it were accepted) that has at least one cell and
    whose number of value cells (the cells after the first) differs from the
    number of feature headers, it raises the [ValueError] 'Input row N
    contains X value fields, but there were Y feature (column) headers': N
    counts the rows from 1 with the header as row 1, X is the number of
    value cells and Y the number of feature headers.  The rows
    ["Ignored, A, B, C"], ["name, 3, 4, 5, 6"], whose three feature names
    stay distinct when stripped, give row 2 with 4 value fields against 3
    headers. *)
Theorem C6_row_field_count :
  (forall header pre fields post st,
      init_loop' (header :: pre) = Ok st ->
      fields <> [] ->
      len (slice_from_1 fields) <> len (l_features st) ->
      Matrix_init' (header :: pre ++ fields :: post)
      = Raise (ValueError (msg_row_fields (len pre + 2)
                                          (len (slice_from_1 fields))
                                          (len (l_features st)))) /\
      len (l_features st) = len (map strip (slice_from_1 header))) /\
  (NoDup (map strip [" A"; " B"; " C"]) ->
   Matrix_init' csv_too_many
   = Raise (ValueError "Input row 2 contains 4 value fields, but there were 3 feature (column) headers")).
Proof.
  assert (Hrow : forall header pre fields post st,
             init_loop' (header :: pre) = Ok st ->
             fields <> [] ->
             len (slice_from_1 fields) <> len (l_features st) ->
             Matrix_init' (header :: pre ++ fields :: post)
             = Raise (ValueError (msg_row_fields (len pre + 2)
                                                 (len (slice_from_1 fields))
                                                 (len (l_features st)))) /\
             len (l_features st) = len (map strip (slice_from_1 header)));
    [| split; [exact Hrow|];
       intros Hnd;
       apply (Hrow ["Ignored"; " A"; " B"; " C"] []
                ["name"; " 3"; " 4"; " 5"; " 6"] []
                (mkLocals [] (map (fun n => (n, []))
                                  (map strip [" A"; " B"; " C"]))
                          (Some 3%Z)));
       [ unfold init_loop; cbn [enumerate foldM]; rewrite init_row_header;
         cbn [slice_from_1 tl];
         now rewrite (declare_loop_ok repr _ [] Hnd)
       | discriminate | discriminate ] ].
  intros header pre fields post st Hloop Hcells Hne.
  pose proof (init_loop_Ok _ _ _ _ _ Hloop) as Hinv.
  assert (Hcount : (len fields - 1)%Z = len (slice_from_1 fields)).
  { destruct fields; [contradiction|].
    unfold len. cbn [List.length slice_from_1 tl]. lia. }
  split.
  - unfold Matrix_init.
    change (header :: pre ++ fields :: post)
      with ((header :: pre) ++ fields :: post).
    rewrite (init_loop_split float_of_str repr _ _ _ Hloop).
    cbn [enumerate foldM].
    replace (1 + len (header :: pre))%Z with (len pre + 2)%Z
      by (unfold len; cbn [List.length]; lia).
    rewrite (row_rejected float_of_str repr header pre st); auto.
    + now rewrite Hcount.
    + unfold len. lia.
    + now rewrite Hcount.
  - unfold len. rewrite <- (inv_feature_keys _ _ _ _ _ Hinv).
    now rewrite keys_length.
Qed.

(** C7. On a constructed matrix, [distanceMatrix], [upperDiagonal] and
    [upperDiagonalAsXML] raise [KeyError] with the given name exactly when
    the name is not a declared feature, and return a result when it is;
    [allFeaturesAsXML] always returns a result. *)
Theorem C7_failure_modes (rows : list (list string)) (m : Matrix) :
  Matrix_init' rows = Ok m ->
  (forall f logged elementName,
      (distanceMatrix' m f logged = Raise (KeyError f)
       <-> ~ In f (keys (features m))) /\
      (upperDiagonal' m f logged = Raise (KeyError f)
       <-> ~ In f (keys (features m))) /\
      (upperDiagonalAsXML' m f elementName logged = Raise (KeyError f)
       <-> ~ In f (keys (features m))) /\
      (In f (keys (features m)) ->
       (exists dm, distanceMatrix' m f logged = Ok dm) /\
       (exists ud, upperDiagonal' m f logged = Ok ud) /\
       (exists x, upperDiagonalAsXML' m f elementName logged = Ok x))) /\
  (forall elementName logged,
      exists x, allFeaturesAsXML' m elementName logged = Ok x).
Proof.
  intros Hm.
  pose proof (Matrix_init_well_formed _ _ _ _ Hm) as Hwf.
  split.
  - intros f logged elementName.
    destruct (d_find (features m) f) as [column|] eqn:Hfind.
    + assert (Hin : In f (keys (features m))).
      { destruct (in_dec string_dec f (keys (features m))) as [|Hn];
          [assumption|].
        apply d_find_None in Hn. congruence. }
      pose proof (distanceMatrix_found libm_log10 m f logged column Hwf Hfind)
        as Hdm.
      pose proof (upperDiagonal_found libm_log10 m f logged column Hwf Hfind)
        as Hud.
      pose proof (upperDiagonalAsXML_eq libm_log10 str_of_float m f
                    elementName logged _ Hud) as Hxml.
      rewrite Hdm, Hud, Hxml.
      repeat split; try discriminate; try contradiction; eauto.
    + pose proof (proj1 (d_find_None _ _) Hfind) as Hn.
      pose proof (distanceMatrix_missing libm_log10 m f logged Hfind) as Hdm.
      pose proof (upperDiagonal_missing libm_log10 m f logged Hfind) as Hud.
      pose proof (upperDiagonalAsXML_raise libm_log10 str_of_float m f
                    elementName logged _ Hud) as Hxml.
      rewrite Hdm, Hud, Hxml.
      repeat split; auto; contradiction.
  - intros elementName logged. unfold allFeaturesAsXML.
    rewrite (feature_loop libm_log10 str_of_float m logged _ _ _ _ _
               (upperDiagonal_all libm_log10 m logged Hwf)).
    eauto.
Qed.

(** C8. On a constructed matrix, [allFeaturesAsXML] returns a node named
    [elementName] whose children are, for each declared feature in
    declaration order, a comment with the feature's name and then a node
    named "feature"; the children of that node are one node named "value"
    per entry of the feature's [upperDiagonal], in order, whose text is
    [str] of the entry: the node [upperDiagonalAsXML] returns with
    [elementName='feature']. *)
Theorem C8_allFeaturesAsXML_tree (rows : list (list string)) (m : Matrix)
    (elementName : string) (logged : bool) :
  Matrix_init' rows = Ok m ->
  exists uds : list (list float),
    Forall2 (fun f ud =>
               upperDiagonal' m f logged = Ok ud /\
               upperDiagonalAsXML' m f "feature" logged
               = Ok (Node "feature" None
                       (map (fun v => Node "value" (Some (str_of_float v)) [])
                            ud)))
            (keys (features m)) uds /\
    allFeaturesAsXML' m elementName logged
    = Ok (Node elementName None
            (flat_map
               (fun p =>
                  [Comment (fst p);
                   Node "feature" None
                     (map (fun v => Node "value" (Some (str_of_float v)) [])
                          (snd p))])
               (combine (keys (features m)) uds))).
Proof.
  intros Hm.
  pose proof (Matrix_init_well_formed _ _ _ _ Hm) as Hwf.
  pose proof (upperDiagonal_all libm_log10 m logged Hwf) as Hall.
  exists (map (upper_values libm_log10 m logged) (keys (features m))).
  split.
  - eapply Forall2_impl; [|exact Hall]. intros f ud Hud. split; [exact Hud|].
    now apply upperDiagonalAsXML_eq.
  - unfold allFeaturesAsXML.
    now rewrite (feature_loop libm_log10 str_of_float m logged _ _ _ _ _ Hall).
Qed.

(** C9. In a constructed matrix every taxon holds one value per declared
    feature and every feature one value per taxon; the [j]-th value of the
    [i]-th taxon is the [i]-th value of the [j]-th feature; and the names
    and values are those of the input, in input order: the features are
    the stripped header cells after the first, the taxa are the stripped
    first cells of the data rows, and each taxon holds the converted
    cells of its row. *)
Theorem C9_two_views_of_one_grid (rows : list (list string)) (m : Matrix) :
  Matrix_init' rows = Ok m ->
  (forall name vs, In (name, vs) (taxa m) ->
                   List.length vs = List.length (features m)) /\
  (forall name col, In (name, col) (features m) ->
                    List.length col = List.length (taxa m)) /\
  (forall i j tname vs fname col,
      nth_error (taxa m) i = Some (tname, vs) ->
      nth_error (features m) j = Some (fname, col) ->
      exists v, nth_error vs j = Some v /\ nth_error col i = Some v) /\
  (exists header data,
      rows = header :: data /\
      keys (features m) = map strip (slice_from_1 header) /\
      keys (taxa m) = map taxon_name data /\
      Forall2 (fun fields vs =>
                 mapM py_float' (slice_from_1 fields) = Ok vs)
              data (values (taxa m))).
Proof.
  intros H. pose proof H as Hgrid0. apply Matrix_init_Ok in H.
  destruct H as [header [data [-> [Hinv _]]]].
  destruct Hinv as [Hfk _ _ Htk _ _ Htv Hrl Hcl Hgrid]. simpl in *.
  rewrite Forall_forall in Hrl, Hcl.
  assert (Hrow : forall name vs, In (name, vs) (taxa m) ->
                   List.length vs = List.length (features m)).
  { intros name vs Hin. apply Hrl. eapply In_values; eauto. }
  assert (Hcol : forall name col, In (name, col) (features m) ->
                   List.length col = List.length (taxa m)).
  { intros name col Hin. apply Hcl. eapply In_values; eauto. }
  repeat split; auto.
  - intros i j tname vs fname col Ht Hf.
    eapply Matrix_init_grid; eauto.
  - exists header, data. auto.
Qed.

(** C10, as amended.  When the header row declares no feature, the data
    rows are still checked against a feature count of zero: a data row that
    the constructor reaches (the header and the rows before it were
    accepted) and that has a cell after the first raises the field-count
    [ValueError]; construction raises 'No input CSV data found.' only when
    every data row consists of one cell; and it does raise it for such rows
    with distinct stripped names, also when there are such rows, so that
    taxa were recorded. *)
Theorem C10_header_without_features (header : list string) :
  map strip (slice_from_1 header) = [] ->
  (forall pre fields post st,
      init_loop' (header :: pre) = Ok st ->
      slice_from_1 fields <> [] ->
      Matrix_init' (header :: pre ++ fields :: post)
      = Raise (ValueError (msg_row_fields (len pre + 2) (len fields - 1) 0))) /\
  (forall data,
      Matrix_init' (header :: data)
      = Raise (ValueError "No input CSV data found.") ->
      Forall (fun fields => List.length fields = 1) data) /\
  (forall data,
      Forall (fun fields => List.length fields = 1) data ->
      NoDup (map taxon_name data) ->
      exists st,
        init_loop' (header :: data) = Ok st /\
        keys (l_taxa st) = map taxon_name data /\
        l_features st = [] /\
        Matrix_init' (header :: data)
        = Raise (ValueError "No input CSV data found.")).
Proof.
  intros Hnone.
  assert (Hfeat : forall data st,
             init_loop' (header :: data) = Ok st -> l_features st = []).
  { intros data st Hloop.
    pose proof (init_loop_Ok _ _ _ _ _ Hloop) as Hinv.
    pose proof (inv_feature_keys _ _ _ _ _ Hinv) as Hk.
    rewrite Hnone in Hk. destruct (l_features st); [reflexivity|discriminate]. }
  split; [|split].
  - intros pre fields post st Hloop Hcells.
    pose proof (init_loop_Ok _ _ _ _ _ Hloop) as Hinv.
    pose proof (Hfeat _ _ Hloop) as HF.
    unfold Matrix_init.
    change (header :: pre ++ fields :: post)
      with ((header :: pre) ++ fields :: post).
    rewrite (init_loop_split float_of_str repr _ _ _ Hloop).
    cbn [enumerate foldM].
    replace (1 + len (header :: pre))%Z with (len pre + 2)%Z
      by (unfold len; cbn [List.length]; lia).
    rewrite (row_rejected float_of_str repr header pre st); auto.
    + now rewrite HF.
    + unfold len. lia.
    + rewrite HF. destruct fields as [|f0 [|f1 cells]];
        try (simpl in Hcells; contradiction);
        unfold len; cbn [List.length]; lia.
  - intros data H. unfold Matrix_init in H.
    destruct (init_loop' (header :: data)) as [st|e] eqn:Hloop; simpl in H.
    + pose proof (init_loop_Ok _ _ _ _ _ Hloop) as Hinv.
      pose proof (Hfeat _ _ Hloop) as HF.
      pose proof (inv_rows_nonempty _ _ _ _ _ Hinv) as Hne.
      pose proof (inv_taxa_values _ _ _ _ _ Hinv) as Hvals.
      pose proof (inv_row_length _ _ _ _ _ Hinv) as Hrl.
      rewrite HF in Hrl. clear H Hloop Hinv HF.
      induction Hvals as [|fields vs data vals Hconv Hvals IH];
        [constructor|].
      inversion Hne as [|? ? Hf Hne']; subst.
      inversion Hrl as [|? ? Hv Hrl']; subst.
      constructor; [|now apply IH].
      apply mapM_length in Hconv. rewrite Hv in Hconv.
      destruct fields as [|f0 [|f1 cells]]; try contradiction;
        [reflexivity|discriminate].
    + injection H as H. apply init_loop_raise in Hloop.
      apply loop_error_not_no_data in Hloop. exfalso. apply Hloop. exact H.
  - intros data Hall Hnd.
    assert (Hloop : init_loop' (header :: data)
                    = Ok (mkLocals (map (fun fields => (taxon_name fields, []))
                                        data) [] (Some 0%Z))).
    { unfold init_loop.
      change (foldM (init_row float_of_str repr)
                    ((1%Z, header) :: enumerate data 2)
                    (mkLocals [] [] None) = Ok (mkLocals
                       (map (fun fields => (taxon_name fields, [])) data)
                       [] (Some 0%Z))).
      cbn [foldM]. rewrite init_row_header, Hnone. cbn [foldM bind].
      change (len (@nil (string * list float))) with 0%Z.
      rewrite (single_cell_rows float_of_str repr data [] 2%Z); auto. lia. }
    eexists. split; [exact Hloop|]. simpl.
    split; [unfold keys; rewrite map_map; reflexivity|].
    split; [reflexivity|].
    unfold Matrix_init. now rewrite Hloop.
Qed.
End Specification.

(** * The properties on concrete input *)

Section ConcreteInput.

#[local] Existing Instance Runtime.str_strip.

(** The repository's tests, run on the model. *)
Example test_feature_and_taxa_values :
  Runtime.Matrix_init csv_2x2 = Ok matrix_2x2.
Proof. reflexivity. Qed.

Example test_distance_matrix :
  Runtime.distanceMatrix matrix_3x2 "A" false
  = Ok [[0; -2; -4]; [2; 0; -2]; [4; 2; 0]]%float.
Proof. reflexivity. Qed.

Example test_upper_diagonal :
  Runtime.upperDiagonal matrix_3x2 "A" false = Ok [-2; -4; -2]%float.
Proof. reflexivity. Qed.

Example test_unknown_feature :
  Runtime.distanceMatrix matrix_3x2 "XXX" true = Raise (KeyError "XXX").
Proof. reflexivity. Qed.

Example test_upper_diagonal_as_xml :
  Runtime.upperDiagonalAsXML matrix_3x2 "A" "xxx" false
  = Ok (Node "xxx" None
          [Node "value" (Some "-2.0") []; Node "value" (Some "-4.0") [];
           Node "value" (Some "-2.0") []]).
Proof. reflexivity. Qed.

Example test_all_features_as_xml :
  Runtime.Matrix_init csv_xml = Ok matrix_xml /\
  Runtime.allFeaturesAsXML matrix_xml "xxx" false
  = Ok (Node "xxx" None
          [Comment "A";
           Node "feature" None
             [Node "value" (Some "-2.0") []; Node "value" (Some "-4.0") [];
              Node "value" (Some "-2.0") []];
           Comment "B";
           Node "feature" None
             [Node "value" (Some "-3.0") []; Node "value" (Some "-5.0") [];
              Node "value" (Some "-2.0") []]]).
Proof. split; reflexivity. Qed.

Example test_too_few_fields :
  Runtime.Matrix_init [ ["Ignored"; " A"; " B"; " C"]; ["name"; " 3"] ]
  = Raise (ValueError "Input row 2 contains 1 value fields, but there were 3 feature (column) headers").
Proof. reflexivity. Qed.

Example test_non_numerical :
  Runtime.Matrix_init
    [ ["Ignored"; " A"; " B"; " C"]; ["name"; " 2"; " 3"; " hello"] ]
  = Raise (ValueError "could not convert string to float: ' hello'").
Proof. reflexivity. Qed.

Example test_repeated_feature_name :
  Runtime.Matrix_init
    [ ["Ignored"; " A"; " B"; " A"]; ["name"; " 2"; " 3"; " hello"] ]
  = Raise (ValueError "Feature name 'A' appears more than once").
Proof. reflexivity. Qed.

Example test_repeated_taxa_name :
  Runtime.Matrix_init
    [ ["Ignored"; " A"; " B"; " C"]; ["name"; " 1"; " 2"; " 3"];
      ["name"; " 4"; " 5"; " 6"] ]
  = Raise (ValueError "Taxa name 'name' appears more than once").
Proof. reflexivity. Qed.

Lemma C1_witness :
  Runtime.Matrix_init csv_2x2 = Ok matrix_2x2 /\
  In "A" (keys (features matrix_2x2)) /\
  (exists column dm,
      d_get (features matrix_2x2) "A" = Ok column /\
      Runtime.distanceMatrix matrix_2x2 "A" false = Ok dm /\
      List.length dm = 2) /\
  (exists m,
      Runtime.Matrix_init csv_2x2 = Ok m /\
      keys (taxa m) = ["name1"; "name2"] /\
      Runtime.distanceMatrix m "A" false = Ok [[0; -2]; [2; 0]]%float).
Proof.
  destruct (C1_distanceMatrix_entries (str_strip := Runtime.str_strip)
              Runtime.float_of_str Runtime.repr
              Runtime.log10) as [Hgen Hex].
  split; [reflexivity|]. split; [simpl; auto|]. split.
  - destruct (Hgen csv_2x2 matrix_2x2 "A" false eq_refl (or_introl eq_refl))
      as [column [dm [H1 [H2 [H3 _]]]]].
    exists column, dm. auto.
  - apply Hex; reflexivity.
Defined.

Lemma C2_witness :
  Runtime.Matrix_init csv_3x2 = Ok matrix_3x2 /\
  In "A" (keys (features matrix_3x2)) /\
  exists dm ud,
    Runtime.distanceMatrix matrix_3x2 "A" false = Ok dm /\
    List.length dm = 3 /\
    Forall (fun row => List.length row = 3) dm /\
    Runtime.upperDiagonal matrix_3x2 "A" false = Ok ud /\
    ud = upper_triangle dm 3 /\
    ud = above_diagonal dm 3 /\
    List.length ud = 3 * (3 - 1) / 2.
Proof.
  split; [reflexivity|]. split; [simpl; auto|].
  apply (C2_upperDiagonal_row_major (str_strip := Runtime.str_strip)
           Runtime.float_of_str Runtime.repr
           Runtime.log10 csv_3x2 matrix_3x2 "A" false eq_refl).
  simpl. auto.
Defined.

Lemma C3_witness :
  Runtime.Matrix_init csv_logs = Ok matrix_logs /\
  In "A" (keys (features matrix_logs)) /\
  exists column scaled,
    d_get (features matrix_logs) "A" = Ok column /\
    scaledvalues Runtime.log10 matrix_logs "A" true = Ok scaled /\
    List.length column = 4 /\
    List.length scaled = 4 /\
    Runtime.distanceMatrix matrix_logs "A" true = Ok (differences scaled) /\
    forall i v,
      nth_error column i = Some v ->
      ((0 <? v)%float = true ->
       math_log10 Runtime.log10 v = Ok (Runtime.log10 v) /\
       nth_error scaled i = Some (Runtime.log10 v)) /\
      ((v <=? 0)%float = true ->
       (exists msg, math_log10 Runtime.log10 v = Raise (ValueError msg)) /\
       nth_error scaled i = Some 0%float /\
       is_nan 0%float = false).
Proof.
  split; [reflexivity|]. split; [simpl; auto|].
  apply (C3_logged_scaling (str_strip := Runtime.str_strip)
           Runtime.float_of_str Runtime.repr Runtime.log10
           csv_logs matrix_logs "A" eq_refl).
  simpl. auto.
Defined.

(** The logged scaling of C3 on values above, at and below zero. *)
Example logged_scaling_example :
  scaledvalues Runtime.log10 matrix_logs "A" true = Ok [2; 0; 0; 1]%float.
Proof. reflexivity. Qed.

(** C4 as stated fails on a value that [float] reads as infinity: the
    matrix is constructed, and its only entry, on the diagonal, is NaN,
    which equals neither 0.0 nor its own negation. *)
Lemma C4_counterexample :
  Runtime.Matrix_init csv_inf = Ok matrix_inf /\
  In "A" (keys (features matrix_inf)) /\
  Runtime.distanceMatrix matrix_inf "A" false = Ok [[nan]] /\
  (entry [[nan]] 0 0 =? 0)%float = false /\
  (entry [[nan]] 0 0 =? - entry [[nan]] 0 0)%float = false.
Proof. repeat split; try reflexivity. simpl. auto. Qed.

Lemma C4_witness :
  Runtime.Matrix_init csv_2x2 = Ok matrix_2x2 /\
  In "A" (keys (features matrix_2x2)) /\
  exists scaled dm,
    scaledvalues Runtime.log10 matrix_2x2 "A" false = Ok scaled /\
    Runtime.distanceMatrix matrix_2x2 "A" false = Ok dm /\
    List.length scaled = 2 /\
    forall i j, i < 2 -> j < 2 ->
      (entry dm i j =? - entry dm j i)%float = negb (is_nan (entry dm i j)) /\
      (entry dm i i =? 0)%float = is_finite (nth i scaled 0%float) /\
      (is_finite (nth i scaled 0%float) = true ->
       is_finite (nth j scaled 0%float) = true ->
       (entry dm i j =? - entry dm j i)%float = true /\
       entry dm i i = 0%float).
Proof.
  split; [reflexivity|]. split; [simpl; auto|].
  apply (C4_antisymmetry_on_finite_values (str_strip := Runtime.str_strip)
           Runtime.float_of_str Runtime.repr
           Runtime.log10 csv_2x2 matrix_2x2 "A" false eq_refl).
  simpl. auto.
Defined.

Lemma C5_witness :
  Runtime.Matrix_init [] = Raise (ValueError "No input CSV data found.") /\
  Runtime.Matrix_init csv_header_only
  = Raise (ValueError "No taxa (rows) found in input CSV.") /\
  Runtime.Matrix_init [ ["Ignored"; " A"] ]
  = Raise (ValueError "No taxa (rows) found in input CSV.").
Proof.
  destruct (C5_no_data_no_taxa (str_strip := Runtime.str_strip)
              Runtime.float_of_str Runtime.repr)
    as [Hnodata [_ [Hnotaxa [Hheader _]]]].
  split; [|split].
  - apply (Hnodata [] (mkLocals [] [] None)); reflexivity.
  - apply (Hnotaxa csv_header_only
             (mkLocals [] [("B", []); ("C", [])] (Some 2%Z)));
      [reflexivity | discriminate | reflexivity].
  - apply (Hheader ["Ignored"; " A"]); [discriminate|].
    repeat constructor. simpl. tauto.
Defined.

(** C6 as stated fails on a blank line, which [csv.reader] yields as a row
    without cells.  Here the header declares one feature, row 2 is blank and
    row 3 has two value cells: the message reports -1 value fields for row
    2, which has no cell after the first, and row 3 is never reported. *)
Lemma C6_counterexample :
  len (slice_from_1 (@nil string)) = 0%Z /\
  len (slice_from_1 ["name"; " 1"; " 2"]) = 2%Z /\
  Runtime.Matrix_init csv_blank_row
  = Raise (ValueError "Input row 2 contains -1 value fields, but there were 1 feature (column) headers") /\
  Runtime.Matrix_init csv_blank_row
  <> Raise (ValueError (msg_row_fields 2 0 1)) /\
  Runtime.Matrix_init csv_blank_row
  <> Raise (ValueError (msg_row_fields 3 2 1)).
Proof. repeat split; try reflexivity; discriminate. Qed.

Lemma C6_witness :
  init_loop Runtime.float_of_str Runtime.repr [ ["Ignored"; " A"; " B"; " C"] ]
  = Ok (mkLocals [] [("A", []); ("B", []); ("C", [])] (Some 3%Z)) /\
  Runtime.Matrix_init csv_too_many
  = Raise (ValueError (msg_row_fields 2 4 3)).
Proof.
  destruct (C6_row_field_count (str_strip := Runtime.str_strip)
              Runtime.float_of_str Runtime.repr)
    as [Hrow _].
  split; [reflexivity|].
  apply (Hrow ["Ignored"; " A"; " B"; " C"] []
           ["name"; " 3"; " 4"; " 5"; " 6"] []
           (mkLocals [] [("A", []); ("B", []); ("C", [])] (Some 3%Z)));
    [reflexivity | discriminate | discriminate].
Defined.

Lemma C7_witness :
  Runtime.Matrix_init csv_3x2 = Ok matrix_3x2 /\
  Runtime.distanceMatrix matrix_3x2 "XXX" true = Raise (KeyError "XXX") /\
  Runtime.upperDiagonal matrix_3x2 "XXX" true = Raise (KeyError "XXX") /\
  Runtime.upperDiagonalAsXML matrix_3x2 "XXX" "xxx" true
  = Raise (KeyError "XXX") /\
  (exists dm, Runtime.distanceMatrix matrix_3x2 "B" true = Ok dm) /\
  (exists x, Runtime.allFeaturesAsXML matrix_3x2 "xxx" true = Ok x).
Proof.
  destruct (C7_failure_modes (str_strip := Runtime.str_strip)
              Runtime.float_of_str Runtime.repr Runtime.log10
              Runtime.str csv_3x2 matrix_3x2 eq_refl) as [Hkey Hall].
  assert (Hnot : ~ In "XXX" (keys (features matrix_3x2)))
    by (simpl; intros [H|[H|[]]]; discriminate H).
  split; [reflexivity|].
  destruct (Hkey "XXX" true "xxx") as [[_ H1] [[_ H2] [[_ H3] _]]].
  split; [exact (H1 Hnot)|]. split; [exact (H2 Hnot)|].
  split; [exact (H3 Hnot)|].
  split; [|apply Hall].
  destruct (Hkey "B" true "xxx") as [_ [_ [_ H4]]].
  apply H4. simpl. auto.
Defined.

Lemma C8_witness :
  Runtime.Matrix_init csv_xml = Ok matrix_xml /\
  exists uds : list (list float),
    Forall2 (fun f ud =>
               Runtime.upperDiagonal matrix_xml f false = Ok ud /\
               Runtime.upperDiagonalAsXML matrix_xml f "feature" false
               = Ok (Node "feature" None
                       (map (fun v => Node "value" (Some (Runtime.str v)) [])
                            ud)))
            ["A"; "B"] uds /\
    Runtime.allFeaturesAsXML matrix_xml "xxx" false
    = Ok (Node "xxx" None
            (flat_map
               (fun p =>
                  [Comment (fst p);
                   Node "feature" None
                     (map (fun v => Node "value" (Some (Runtime.str v)) [])
                          (snd p))])
               (combine ["A"; "B"] uds))).
Proof.
  split; [reflexivity|].
  exact (C8_allFeaturesAsXML_tree (str_strip := Runtime.str_strip)
           Runtime.float_of_str Runtime.repr
           Runtime.log10 Runtime.str csv_xml matrix_xml "xxx" false eq_refl).
Defined.

Lemma C9_witness :
  Runtime.Matrix_init csv_2x2 = Ok matrix_2x2 /\
  (forall name vs, In (name, vs) (taxa matrix_2x2) -> List.length vs = 2) /\
  (forall name col,
      In (name, col) (features matrix_2x2) -> List.length col = 2) /\
  (forall i j tname vs fname col,
      nth_error (taxa matrix_2x2) i = Some (tname, vs) ->
      nth_error (features matrix_2x2) j = Some (fname, col) ->
      exists v, nth_error vs j = Some v /\ nth_error col i = Some v).
Proof.
  split; [reflexivity|].
  destruct (C9_two_views_of_one_grid (str_strip := Runtime.str_strip)
              Runtime.float_of_str Runtime.repr
              csv_2x2 matrix_2x2 eq_refl) as [H1 [H2 [H3 _]]].
  repeat split; assumption.
Defined.

(** C10 as stated fails on a row with a value cell that follows a repeated
    taxon name.  The header declares no feature, rows 2 and 3 are the one
    cell "a" and row 4 has a value cell: row 3 raises the repeated-name
    [ValueError], row 4 is never looked at and no field-count error is
    raised for any row or counts. *)
Lemma C10_counterexample :
  map strip (slice_from_1 ["Ignored"]) = [] /\
  slice_from_1 ["b"; " 1"] <> [] /\
  Runtime.Matrix_init [ ["Ignored"]; ["a"]; ["a"]; ["b"; " 1"] ]
  = Raise (ValueError "Taxa name 'a' appears more than once") /\
  forall row nvalues nFeatures,
    Runtime.Matrix_init [ ["Ignored"]; ["a"]; ["a"]; ["b"; " 1"] ]
    <> Raise (ValueError (msg_row_fields row nvalues nFeatures)).
Proof.
  split; [reflexivity|]. split; [discriminate|]. split; [reflexivity|].
  intros row nvalues nFeatures H.
  change (Runtime.Matrix_init [ ["Ignored"]; ["a"]; ["a"]; ["b"; " 1"] ])
    with (@Raise Matrix (ValueError "Taxa name 'a' appears more than once"))
    in H.
  unfold msg_row_fields in H. simpl in H. discriminate H.
Qed.

Lemma C10_witness :
  Runtime.Matrix_init [ ["Ignored"]; ["name1"]; ["name2"; " 3"] ]
  = Raise (ValueError (msg_row_fields 3 1 0)) /\
  Runtime.Matrix_init csv_no_features
  = Raise (ValueError "No input CSV data found.") /\
  Forall (fun fields : list string => List.length fields = 1)
         [ ["name1"]; ["name2"] ].
Proof.
  destruct (C10_header_without_features (str_strip := Runtime.str_strip)
              Runtime.float_of_str Runtime.repr
              ["Ignored"] eq_refl) as [Hrow [Honly Hraised]].
  split; [|split].
  - apply (Hrow [ ["name1"] ] ["name2"; " 3"] []
             (mkLocals [("name1", [])] [] (Some 0%Z)));
      [reflexivity | discriminate].
  - destruct (Hraised [ ["name1"]; ["name2"] ]) as [st [_ [_ [_ H]]]].
    + repeat constructor.
    + repeat constructor; simpl; intuition discriminate.
    + exact H.
  - apply Honly. reflexivity.
Defined.

End ConcreteInput.

(** * Further properties of the code *)

Lemma dict_combine {V : Type} (d : dict V) : d = combine (keys d) (values d).
Proof.
  induction d as [|[k v] d IH]; simpl; [reflexivity|]. now rewrite <- IH.
Qed.

Lemma nth_grid_columns (grid : list (list float)) (n j : nat) :
  j < n ->
  nth j (grid_columns grid n) [] = map (fun row => nth j row 0%float) grid.
Proof.
  intros Hj. unfold grid_columns.
  rewrite (nth_indep _ []
             ((fun j => map (fun row => nth j row 0%float) grid) 0))
    by (now rewrite length_map, length_seq).
  rewrite (map_nth (fun j => map (fun row => nth j row 0%float) grid)).
  now rewrite seq_nth.
Qed.

Lemma nth_column (grid : list (list float)) (i j : nat) :
  nth i (map (fun row => nth j row 0%float) grid) 0%float
  = nth j (nth i grid []) 0%float.
Proof.
  revert i. induction grid as [|row grid IH]; intros [|i]; simpl; auto.
  - now destruct j.
  - now destruct j.
Qed.

Lemma Forall2_functional {A B : Type} (f : A -> result B) (xs : list A) :
  forall ys zs,
    Forall2 (fun x y => f x = Ok y) xs ys ->
    Forall2 (fun x z => f x = Ok z) xs zs ->
    ys = zs.
Proof.
  induction xs as [|x xs IH]; intros ys zs Hy Hz;
    inversion Hy; inversion Hz; subst; [reflexivity|].
  f_equal; [congruence | now apply IH].
Qed.

Section Acceptance.
Context {str_strip : StrStrip}.
Variable float_of_str : string -> option float.
Variable repr : string -> string.

Local Abbreviation py_float' := (py_float float_of_str repr).
Local Abbreviation init_row' := (init_row float_of_str repr).
Local Abbreviation init_loop' := (init_loop float_of_str repr).
Local Abbreviation Matrix_init' := (Matrix_init float_of_str repr).
Local Abbreviation loop_invariant' := (loop_invariant float_of_str repr).
Local Abbreviation accepted' := (accepted float_of_str repr).

(** The state that the invariant describes, written out. *)
Lemma loop_invariant_built header data st :
  loop_invariant' header data st ->
  mkMatrix (l_taxa st) (l_features st)
  = built_matrix header data (values (l_taxa st)).
Proof.
  intros [Hfk _ _ Htk _ _ _ Hrl Hcl Hgrid]. unfold built_matrix.
  assert (HnF : List.length (slice_from_1 header)
                = List.length (l_features st)).
  { rewrite <- (keys_length (l_features st)), Hfk. now rewrite length_map. }
  f_equal.
  - rewrite <- Htk. apply dict_combine.
  - rewrite <- Hfk, HnF.
    rewrite (dict_combine (l_features st)) at 1. f_equal.
    apply (nth_ext _ _ [] []).
    + unfold grid_columns. now rewrite length_map, length_seq, values_length.
    + intros j Hj. rewrite values_length in Hj.
      rewrite nth_grid_columns by assumption.
      assert (Hlen : List.length (nth j (values (l_features st)) [])
                     = List.length (l_taxa st)).
      { rewrite Forall_forall in Hcl. apply Hcl. apply nth_In.
        now rewrite values_length. }
      apply (nth_ext _ _ 0%float 0%float).
      * now rewrite length_map, values_length.
      * intros i Hi. rewrite Hlen in Hi. rewrite nth_column.
        symmetry. now apply Hgrid.
Qed.

(** Data rows that pass every check are all processed. *)
Lemma data_rows_accept header (data : list (list string)) :
  forall grid done st k,
    (2 <= k)%Z ->
    loop_invariant' header done st ->
    Forall (fun fields =>
              List.length fields = S (List.length (l_features st))) data ->
    NoDup (keys (l_taxa st) ++ map taxon_name data) ->
    Forall2 (fun fields vs => mapM py_float' (slice_from_1 fields) = Ok vs)
            data grid ->
    exists st', foldM init_row' (enumerate data k) st = Ok st'.
Proof.
  induction data as [|fields data IH]; intros grid done st k Hk Hinv Hlen Hnd Hg;
    cbn [enumerate foldM].
  - eauto.
  - inversion Hlen as [|? ? Hf Hlen']; subst.
    inversion Hg as [|? vs ? grid' Hvs Hg']; subst.
    assert (Hrow : init_row' st (k, fields)
                   = Ok (mkLocals (l_taxa st ++ [(taxon_name fields, vs)])
                                  (append_column_values (l_features st) vs)
                                  (l_nFeatures st))).
    { rewrite init_row_data;
        [| apply Z.eqb_neq; lia | apply Hinv | apply Hinv].
      assert (Hz : (len fields - 1 =? len (l_features st))%Z = true)
        by (apply Z.eqb_eq; unfold len; rewrite Hf; lia).
      rewrite Hz. simpl.
      assert (Hnew : ~ In (taxon_name fields) (keys (l_taxa st))).
      { simpl in Hnd. apply NoDup_remove_2 in Hnd. intros Hin. apply Hnd.
        apply in_or_app. now left. }
      apply d_mem_false in Hnew. rewrite Hnew. now rewrite Hvs. }
    rewrite Hrow. cbn [bind].
    pose proof (invariant_data_rows float_of_str repr header [fields] done
                  st (mkLocals (l_taxa st ++ [(taxon_name fields, vs)])
                               (append_column_values (l_features st) vs)
                               (l_nFeatures st)) k Hk Hinv) as Hinv1.
    cbn [enumerate foldM] in Hinv1. rewrite Hrow in Hinv1.
    specialize (Hinv1 eq_refl).
    assert (Hws : List.length vs = List.length (l_features st)).
    { apply mapM_length in Hvs. rewrite Hvs.
      destruct fields; simpl in *; [discriminate | congruence]. }
    eapply (IH grid'); [| exact Hinv1 | | | exact Hg']; simpl.
    + lia.
    + now rewrite acv_length.
    + rewrite keys_app. simpl. rewrite <- app_assoc. exact Hnd.
Qed.

Lemma init_loop_accept header data grid :
  NoDup (map strip (slice_from_1 header)) ->
  NoDup (map taxon_name data) ->
  Forall (fun fields =>
            List.length fields = S (List.length (slice_from_1 header))) data ->
  Forall2 (fun fields vs => mapM py_float' (slice_from_1 fields) = Ok vs)
          data grid ->
  exists st, init_loop' (header :: data) = Ok st.
Proof.
  intros Hfn Htn Hlen Hg. unfold init_loop.
  change (exists st, foldM init_row' ((1%Z, header) :: enumerate data 2)
                           (mkLocals [] [] None) = Ok st).
  cbn [foldM]. rewrite init_row_header.
  rewrite (declare_loop_ok repr _ [] Hfn). cbn [bind app].
  pose proof (declare_loop_ok repr _ [] Hfn) as Hhead.
  apply invariant_header with (float_of_str := float_of_str) in Hhead.
  simpl in Hhead.
  eapply (data_rows_accept header data grid []); [lia | exact Hhead | | | ];
    simpl; auto.
  now rewrite !length_map.
Qed.
End Acceptance.

Lemma Forall2_Forall_rows {A B : Type} (P : A -> B -> Prop) (Q : B -> Prop)
    (R : A -> Prop) (xs : list A) (ys : list B) :
  (forall x y, P x y -> Q y -> R x) ->
  Forall2 P xs ys -> Forall Q ys -> Forall R xs.
Proof.
  intros H H2. induction H2 as [|x y xs ys Hxy _ IH]; intros HQ;
    [constructor|].
  inversion HQ; subst. constructor; eauto.
Qed.

Lemma mapM_first_failure {X Y : Type} (f : X -> result Y) (good : list X)
    (bad : X) (rest : list X) (ys : list Y) (e : exn) :
  mapM f good = Ok ys -> f bad = Raise e ->
  mapM f (good ++ bad :: rest) = Raise e.
Proof.
  revert ys. induction good as [|x good IH]; intros ys Hg Hb; simpl in *.
  - now rewrite Hb.
  - destruct (f x); simpl in *; [|discriminate].
    destruct (mapM f good) as [ys'|]; simpl in *; [|discriminate].
    now rewrite (IH ys' eq_refl Hb).
Qed.

Section ConstructorOutcomes.
Context {str_strip : StrStrip}.
Variable float_of_str : string -> option float.
Variable repr : string -> string.

Local Abbreviation py_float' := (py_float float_of_str repr).
Local Abbreviation init_row' := (init_row float_of_str repr).
Local Abbreviation init_loop' := (init_loop float_of_str repr).
Local Abbreviation Matrix_init' := (Matrix_init float_of_str repr).
Local Abbreviation loop_invariant' := (loop_invariant float_of_str repr).
Local Abbreviation accepted' := (accepted float_of_str repr).

(** A constructed matrix is the one its rows describe. *)
Lemma Matrix_init_built header data m :
  Matrix_init' (header :: data) = Ok m ->
  accepted' header data (values (taxa m)) /\
  m = built_matrix header data (values (taxa m)).
Proof.
  intros H. apply Matrix_init_Ok in H.
  destruct H as [header' [data' [Heq [Hinv [HF HT]]]]].
  injection Heq as <- <-.
  pose proof (loop_invariant_built _ _ _ _ _ Hinv) as Hbuilt.
  destruct Hinv as [Hfk Hfnd _ Htk Htnd Hne Htv Hrl _ _]. simpl in *.
  split; [|now destruct m].
  assert (HnF : List.length (slice_from_1 header)
                = List.length (features m)).
  { rewrite <- (keys_length (features m)), Hfk. now rewrite length_map. }
  repeat split.
  - intros E. rewrite E in Hfk. destruct (features m); [auto|discriminate].
  - intros E. rewrite E in Htk. destruct (taxa m); [auto|discriminate].
  - now rewrite <- Hfk.
  - now rewrite <- Htk.
  - rewrite HnF. rewrite Forall_forall in Hne.
    assert (Hne' : Forall2 (fun fields vs =>
                              fields <> [] /\
                              mapM py_float' (slice_from_1 fields) = Ok vs)
                           data (values (taxa m))).
    { clear - Hne Htv.
      induction Htv as [|fields vs data' grid' Hvs _ IH]; constructor.
      - split; [apply Hne; now left | assumption].
      - apply IH. intros fields' Hin. apply Hne. now right. }
    eapply Forall2_Forall_rows; [| exact Hne' | exact Hrl].
    intros fields vs [Hf Hvs] Hlen. apply mapM_length in Hvs.
    destruct fields; [contradiction|]. simpl in *. congruence.
  - exact Htv.
Qed.

Lemma accepted_built header data grid :
  accepted' header data grid ->
  Matrix_init' (header :: data) = Ok (built_matrix header data grid).
Proof.
  intros [Hh [Hd [Hfn [Htn [Hlen Hg]]]]].
  destruct (init_loop_accept float_of_str repr header data grid
              Hfn Htn Hlen Hg) as [st Hloop].
  pose proof (init_loop_Ok _ _ _ _ _ Hloop) as Hinv.
  pose proof (loop_invariant_built _ _ _ _ _ Hinv) as Hbuilt.
  pose proof (Forall2_functional _ _ _ _ (inv_taxa_values _ _ _ _ _ Hinv) Hg)
    as Hgrid.
  rewrite Hgrid in Hbuilt.
  unfold Matrix_init. rewrite Hloop. cbn [bind].
  pose proof (inv_feature_keys _ _ _ _ _ Hinv) as Hfk.
  pose proof (inv_taxa_keys _ _ _ _ _ Hinv) as Htk.
  destruct (l_features st) as [|f F] eqn:HF.
  { simpl in Hfk. destruct (slice_from_1 header); [contradiction|discriminate]. }
  destruct (l_taxa st) as [|t T] eqn:HT.
  { simpl in Htk. destruct data; [contradiction|discriminate]. }
  now rewrite Hbuilt.
Qed.
End ConstructorOutcomes.

Lemma pairwise_rows (scaled : list float) :
  pairwise_differences scaled
  = flat_map (fun row => map (fun y => (nth row scaled 0 - y)%float)
                             (skipn (row + 1) scaled))
             (seq 0 (List.length scaled)).
Proof.
  induction scaled as [|x rest IH]; [reflexivity|].
  cbn [pairwise_differences List.length seq flat_map].
  apply f_equal2; [reflexivity|].
  rewrite <- seq_shift.
  rewrite (flat_map_concat_map _ (map S _)), map_map, <- flat_map_concat_map.
  rewrite IH. reflexivity.
Qed.

Lemma skipn_as_nth (scaled : list float) (k : nat) :
  skipn k scaled
  = map (fun col => nth col scaled 0%float) (seq k (List.length scaled - k)).
Proof.
  revert k. induction scaled as [|x rest IH]; intros k.
  - now destruct k.
  - destruct k as [|k].
    + cbn [skipn List.length Nat.sub seq map nth]. f_equal.
      rewrite <- seq_shift, map_map. rewrite (IH 0) at 1.
      now rewrite Nat.sub_0_r.
    + cbn [skipn List.length Nat.sub]. rewrite IH, <- seq_shift, map_map.
      reflexivity.
Qed.

(** The upper triangle of the matrix of differences, without indices. *)
Lemma upper_triangle_pairwise (scaled : list float) :
  upper_triangle (differences scaled) (List.length scaled)
  = pairwise_differences scaled.
Proof.
  rewrite pairwise_rows. unfold upper_triangle.
  rewrite !flat_map_concat_map. f_equal.
  apply map_ext_in. intros row Hrow. apply in_seq in Hrow.
  rewrite skipn_as_nth, map_map.
  apply map_ext_in. intros col Hcol. apply in_seq in Hcol.
  apply differences_entry; lia.
Qed.

Lemma Forall2_nth_error {A B : Type} (P : A -> B -> Prop) (xs : list A)
    (ys : list B) (i : nat) (x : A) :
  Forall2 P xs ys -> nth_error xs i = Some x ->
  exists y, nth_error ys i = Some y /\ P x y.
Proof.
  intros H. revert i. induction H as [|x0 y0 xs ys Hxy _ IH]; intros i Hi.
  - destruct i; discriminate.
  - destruct i as [|i]; simpl in *.
    + injection Hi as <-. eauto.
    + now apply IH.
Qed.

Lemma in_combine_map {A B : Type} (g : A -> B) (l : list A) (a : A) (b : B) :
  In (a, b) (combine l (map g l)) -> In a l /\ b = g a.
Proof.
  induction l as [|x l IH]; simpl; [tauto|].
  intros [[= -> ->]|H]; [auto|]. destruct (IH H). auto.
Qed.

Lemma pairs_length {A B : Type} (h : A -> B * B) (l : list A) :
  List.length (flat_map (fun p => [fst (h p); snd (h p)]) l)
  = 2 * List.length l.
Proof. induction l as [|x l IH]; simpl; [reflexivity|]. rewrite IH. lia. Qed.

Section FurtherProperties.
Context {str_strip : StrStrip}.
Variable float_of_str : string -> option float.
Variable repr : string -> string.
Variable libm_log10 : float -> float.
Variable str_of_float : float -> string.

Local Abbreviation py_float' := (py_float float_of_str repr).
Local Abbreviation init_loop' := (init_loop float_of_str repr).
Local Abbreviation Matrix_init' := (Matrix_init float_of_str repr).
Local Abbreviation accepted' := (accepted float_of_str repr).
Local Abbreviation distanceMatrix' := (distanceMatrix libm_log10).
Local Abbreviation upperDiagonal' := (upperDiagonal libm_log10).
Local Abbreviation allFeaturesAsXML' :=
  (allFeaturesAsXML libm_log10 str_of_float).
Local Abbreviation scaled_value' := (scaled_value libm_log10).

(** X1. The constructor returns a matrix exactly for a header row that
    declares at least one feature under distinct stripped names, followed
    by at least one data row, every data row having one cell per feature
    after its first, the stripped first cells being distinct and all other
    cells being converted by [float]; the matrix then holds each row's
    converted cells under the row's name and each column under the
    feature's name. *)
Theorem X1_constructor_accepts_exactly (rows : list (list string))
    (m : Matrix) :
  Matrix_init' rows = Ok m <->
  exists header data grid,
    rows = header :: data /\
    accepted' header data grid /\
    m = built_matrix header data grid.
Proof.
  split.
  - intros H. destruct rows as [|header data]; [discriminate|].
    destruct (Matrix_init_built _ _ _ _ _ H) as [Hacc Hm].
    exists header, data, (values (taxa m)). auto.
  - intros [header [data [grid [-> [Hacc ->]]]]].
    now apply accepted_built.
Qed.

(** X2. The exceptions that leave the constructor.  When [csv.reader]
    yields rows and then ends or raises, an exception that leaves the
    constructor is the one the reader raised (a [_csv.Error], say) or a
    [ValueError] with one of the constructor's six messages: the
    constructor's own code never raises a [KeyError], an [IndexError] or an
    unbound [nFeatures].  A reader that ends gives the constructor on the
    rows; a reader that raises after rows the loop accepts makes the
    constructor raise the reader's exception, whatever the rows declare. *)
Theorem X2_constructor_exceptions (rows : list (list string)) :
  (forall reader_error e,
      Matrix_init_reader float_of_str repr rows reader_error = Raise e ->
      reader_error = Some e \/
      (exists name, e = ValueError (msg_feature_repeated repr name)) \/
      (exists row nvalues nFeatures,
          e = ValueError (msg_row_fields row nvalues nFeatures)) \/
      (exists name, e = ValueError (msg_taxa_repeated repr name)) \/
      (exists field, e = ValueError (msg_float repr field)) \/
      e = ValueError "No input CSV data found." \/
      e = ValueError "No taxa (rows) found in input CSV.") /\
  Matrix_init_reader float_of_str repr rows None = Matrix_init' rows /\
  (forall st e,
      init_loop' rows = Ok st ->
      Matrix_init_reader float_of_str repr rows (Some e) = Raise e).
Proof.
  split; [|split; [reflexivity|]].
  - intros reader_error e H.
    destruct reader_error as [e0|]; simpl in H.
    + destruct (init_loop' rows) as [st|e'] eqn:Hloop; simpl in H.
      * left. congruence.
      * right. injection H as <-. apply init_loop_raise in Hloop.
        unfold loop_error in Hloop. tauto.
    + right. unfold Matrix_init in H.
      destruct (init_loop' rows) as [st|e'] eqn:Hloop; simpl in H.
      * destruct (l_features st); [injection H as <-; tauto|].
        destruct (l_taxa st); [injection H as <-; tauto | discriminate].
      * injection H as <-. apply init_loop_raise in Hloop.
        unfold loop_error in Hloop. tauto.
  - intros st e Hloop. simpl. now rewrite Hloop.
Qed.

(** X3. When a stripped feature name of the header repeats an earlier one,
    the constructor raises 'Feature name %r appears more than once' for the
    first name that does, whatever the data rows hold. *)
Theorem X3_repeated_feature_name (header : list string)
    (data : list (list string)) (pre : list string) (name : string)
    (post : list string) :
  map strip (slice_from_1 header) = pre ++ name :: post ->
  NoDup pre ->
  In name pre ->
  Matrix_init' (header :: data)
  = Raise (ValueError (msg_feature_repeated repr name)).
Proof.
  intros Hnames Hnd Hin. unfold Matrix_init, init_loop.
  change (enumerate (header :: data) 1)
    with ((1%Z, header) :: enumerate data 2).
  cbn [foldM]. rewrite init_row_header, Hnames, foldM_app.
  rewrite (declare_loop_ok repr pre [] Hnd). cbn [bind app foldM].
  unfold declare_feature at 1.
  assert (Hmem : d_mem (map (fun n : string => (n, @nil float)) pre) name
                 = true).
  { apply d_mem_true. unfold keys. rewrite map_map. simpl.
    now rewrite map_id. }
  now rewrite Hmem.
Qed.

(** X4. When the constructor reaches a data row with the right number of
    cells whose stripped name is that of an earlier data row, it raises
    'Taxa name %r appears more than once', whether or not the cells of the
    row can be converted. *)
Theorem X4_repeated_taxon_name (header : list string)
    (pre : list (list string)) (fields : list string)
    (post : list (list string)) (st : locals) :
  init_loop' (header :: pre) = Ok st ->
  List.length fields = S (List.length (l_features st)) ->
  In (taxon_name fields) (map taxon_name pre) ->
  Matrix_init' (header :: pre ++ fields :: post)
  = Raise (ValueError (msg_taxa_repeated repr (taxon_name fields))).
Proof.
  intros Hloop Hlen Hin.
  pose proof (init_loop_Ok _ _ _ _ _ Hloop) as Hinv.
  unfold Matrix_init.
  change (header :: pre ++ fields :: post)
    with ((header :: pre) ++ fields :: post).
  rewrite (init_loop_split float_of_str repr _ _ _ Hloop).
  cbn [enumerate foldM].
  rewrite init_row_data;
    [| apply Z.eqb_neq; unfold len; cbn [List.length]; lia
     | apply Hinv | apply Hinv].
  assert (Hz : (len fields - 1 =? len (l_features st))%Z = true)
    by (apply Z.eqb_eq; unfold len; rewrite Hlen; lia).
  rewrite Hz. cbn [negb].
  rewrite <- (inv_taxa_keys _ _ _ _ _ Hinv) in Hin.
  apply d_mem_true in Hin. now rewrite Hin.
Qed.

(** X5. When the constructor reaches a data row with the right number of
    cells and a new name, and [float] rejects one of its value cells, it
    raises the conversion error for the first such cell, as written in the
    input. *)
Theorem X5_unconvertible_cell (header : list string)
    (pre : list (list string)) (fields : list string)
    (post : list (list string)) (st : locals)
    (good : list string) (bad : string) (rest : list string)
    (vs : list float) :
  init_loop' (header :: pre) = Ok st ->
  List.length fields = S (List.length (l_features st)) ->
  ~ In (taxon_name fields) (map taxon_name pre) ->
  slice_from_1 fields = good ++ bad :: rest ->
  mapM py_float' good = Ok vs ->
  float_of_str bad = None ->
  Matrix_init' (header :: pre ++ fields :: post)
  = Raise (ValueError (msg_float repr bad)).
Proof.
  intros Hloop Hlen Hnew Hcells Hgood Hbad.
  pose proof (init_loop_Ok _ _ _ _ _ Hloop) as Hinv.
  unfold Matrix_init.
  change (header :: pre ++ fields :: post)
    with ((header :: pre) ++ fields :: post).
  rewrite (init_loop_split float_of_str repr _ _ _ Hloop).
  cbn [enumerate foldM].
  rewrite init_row_data;
    [| apply Z.eqb_neq; unfold len; cbn [List.length]; lia
     | apply Hinv | apply Hinv].
  assert (Hz : (len fields - 1 =? len (l_features st))%Z = true)
    by (apply Z.eqb_eq; unfold len; rewrite Hlen; lia).
  rewrite Hz. cbn [negb].
  rewrite <- (inv_taxa_keys _ _ _ _ _ Hinv) in Hnew.
  apply d_mem_false in Hnew. rewrite Hnew, Hcells.
  rewrite (mapM_first_failure py_float' good bad rest vs
             (ValueError (msg_float repr bad)) Hgood).
  - reflexivity.
  - unfold py_float. now rewrite Hbad.
Qed.

(** X7. In a constructed matrix, looking a taxon up by the stripped first
    cell of its data row gives the converted cells of that row, and looking
    a feature up by its stripped header cell gives, for every taxon in
    order, the value in the feature's position; the taxa and features
    present are exactly those names. *)
Theorem X7_lookup_by_name (header : list string) (data : list (list string))
    (m : Matrix) :
  Matrix_init' (header :: data) = Ok m ->
  (forall fields,
      In fields data ->
      d_get (taxa m) (taxon_name fields)
      = mapM py_float' (slice_from_1 fields)) /\
  (forall j cell,
      nth_error (slice_from_1 header) j = Some cell ->
      d_get (features m) (strip cell)
      = Ok (map (fun vs => nth j vs 0%float) (values (taxa m)))) /\
  (forall name,
      d_mem (taxa m) name = true <-> In name (map taxon_name data)) /\
  (forall name,
      d_mem (features m) name = true
      <-> In name (map strip (slice_from_1 header))).
Proof.
  intros H. destruct (Matrix_init_built _ _ _ _ _ H) as [Hacc Hm].
  destruct Hacc as [_ [_ [Hfn [Htn [_ Hg]]]]].
  set (grid := values (taxa m)) in *.
  assert (Htaxa : taxa m = combine (map taxon_name data) grid)
    by (rewrite Hm at 1; reflexivity).
  assert (Hfeat : features m
                  = combine (map strip (slice_from_1 header))
                      (grid_columns grid
                         (List.length (slice_from_1 header))))
    by (rewrite Hm at 1; reflexivity).
  assert (Hglen : List.length (map taxon_name data) = List.length grid)
    by (rewrite length_map; eapply Forall2_length; eauto).
  assert (Hclen : List.length (map strip (slice_from_1 header))
                  = List.length (grid_columns grid
                                   (List.length (slice_from_1 header))))
    by (unfold grid_columns; now rewrite !length_map, length_seq).
  split; [|split; [|split]].
  - intros fields Hin. destruct (In_nth_error _ _ Hin) as [i Hi].
    destruct (Forall2_nth_error _ _ _ _ _ Hg Hi) as [vs [Hvs Hconv]].
    rewrite Hconv. unfold d_get. rewrite Htaxa.
    rewrite (d_find_combine _ grid i (taxon_name fields) Htn Hglen).
    + now rewrite Hvs.
    + now rewrite nth_error_map, Hi.
  - intros j cell Hj. unfold d_get. rewrite Hfeat.
    rewrite (d_find_combine _ _ j (strip cell) Hfn Hclen).
    + assert (Hlt : j < List.length (slice_from_1 header))
        by (apply nth_error_Some; congruence).
      rewrite (nth_error_nth' _ []);
        [| unfold grid_columns; now rewrite length_map, length_seq].
      now rewrite nth_grid_columns.
    + now rewrite nth_error_map, Hj.
  - intros name. rewrite d_mem_true, Htaxa, keys_combine; tauto.
  - intros name. rewrite d_mem_true, Hfeat, keys_combine; tauto.
Qed.

(** X8. For a constructed matrix and a feature it holds, [upperDiagonal]
    lists, for each taxon in order, its scaled value minus the scaled value
    of every later taxon, in order. *)
Theorem X8_upperDiagonal_pairwise (rows : list (list string)) (m : Matrix)
    (f : string) (logged : bool) (column : list float) :
  Matrix_init' rows = Ok m ->
  d_get (features m) f = Ok column ->
  upperDiagonal' m f logged
  = Ok (pairwise_differences (map (scaled_value' logged) column)).
Proof.
  intros Hm Hget.
  pose proof (Matrix_init_well_formed _ _ _ _ Hm) as Hwf.
  assert (Hfind : d_find (features m) f = Some column).
  { unfold d_get in Hget. destruct (d_find (features m) f);
      [congruence | discriminate]. }
  rewrite (upperDiagonal_found libm_log10 m f logged column Hwf Hfind).
  rewrite <- (column_length m f column Hwf Hfind).
  rewrite <- (length_map (scaled_value' logged) column).
  now rewrite upper_triangle_pairwise.
Qed.

(** X9. On a constructed matrix with n taxa, the node that
    [allFeaturesAsXML] returns has two children per feature; each child is a
    comment naming a feature of the matrix or a node 'feature' with
    n(n-1)/2 children, all of them nodes 'value' that hold a text and no
    children. *)
Theorem X9_xml_shape (rows : list (list string)) (m : Matrix)
    (elementName : string) (logged : bool) (x : Element) :
  Matrix_init' rows = Ok m ->
  allFeaturesAsXML' m elementName logged = Ok x ->
  x = Node elementName None (children x) /\
  List.length (children x) = 2 * List.length (features m) /\
  Forall (fun child =>
            (exists name,
                child = Comment name /\ In name (keys (features m))) \/
            (exists vals,
                child = Node "feature" None vals /\
                List.length vals
                = List.length (taxa m) * (List.length (taxa m) - 1) / 2 /\
                Forall (fun v => exists text,
                            v = Node "value" (Some text) []) vals))
         (children x).
Proof.
  intros Hm Hx.
  pose proof (Matrix_init_well_formed _ _ _ _ Hm) as Hwf.
  unfold allFeaturesAsXML in Hx.
  rewrite (feature_loop libm_log10 str_of_float m logged _ _ _ _ _
             (upperDiagonal_all libm_log10 m logged Hwf)) in Hx.
  injection Hx as <-. cbn [children app].
  split; [reflexivity|]. split.
  - rewrite (pairs_length
               (fun p : string * list float =>
                  (Comment (fst p),
                   Node "feature" None (value_nodes str_of_float (snd p))))).
    rewrite length_combine, length_map, keys_length. lia.
  - apply Forall_forall. intros child Hin.
    apply in_flat_map in Hin. destruct Hin as [[name ud] [Hp Hchild]].
    apply in_combine_map in Hp. destruct Hp as [Hname ->].
    cbn [fst snd] in Hchild.
    destruct Hchild as [<-|[<-|[]]]; [left; eauto|].
    right. eexists. split; [reflexivity|]. split.
    + unfold value_nodes. rewrite length_map. unfold upper_values.
      destruct (d_find_In _ _ Hname) as [column Hfind]. rewrite Hfind.
      apply upper_triangle_length.
    + unfold value_nodes. apply Forall_forall. intros v Hv.
      apply in_map_iff in Hv. destruct Hv as [y [<- _]]. eauto.
Qed.

(** X10. With [logged=True], two taxa whose raw values for the feature are
    both at most zero are at distance 0.0, whatever those values are. *)
Theorem X10_logged_nonpositive_pair (rows : list (list string)) (m : Matrix)
    (f : string) (column : list float) (i j : nat) (vi vj : float) :
  Matrix_init' rows = Ok m ->
  d_get (features m) f = Ok column ->
  nth_error column i = Some vi ->
  nth_error column j = Some vj ->
  (vi <=? 0)%float = true ->
  (vj <=? 0)%float = true ->
  exists dm row,
    distanceMatrix' m f true = Ok dm /\
    nth_error dm i = Some row /\
    nth_error row j = Some 0%float.
Proof.
  intros Hm Hget Hi Hj Hvi Hvj.
  pose proof (Matrix_init_well_formed _ _ _ _ Hm) as Hwf.
  assert (Hfind : d_find (features m) f = Some column).
  { unfold d_get in Hget. destruct (d_find (features m) f);
      [congruence | discriminate]. }
  exists (differences (map (scaled_value' true) column)),
         (map (fun v2 => (scaled_value' true vi - v2)%float)
              (map (scaled_value' true) column)).
  split; [now apply distanceMatrix_found|].
  unfold differences. split.
  - now rewrite !nth_error_map, Hi.
  - rewrite !nth_error_map, Hj. cbn [option_map scaled_value].
    now rewrite Hvi, Hvj.
Qed.

(** X12. The constructor accepts no row without cells (a blank line of the
    input): when it reaches one it raises the field-count [ValueError],
    which reports -1 value fields, however many features the header
    declares. *)
Theorem X12_blank_row_rejected (header : list string)
    (pre post : list (list string)) (st : locals) :
  init_loop' (header :: pre) = Ok st ->
  Matrix_init' (header :: pre ++ [] :: post)
  = Raise (ValueError (msg_row_fields (len pre + 2) (-1)
                                      (len (l_features st)))).
Proof.
  intros Hloop.
  pose proof (init_loop_Ok _ _ _ _ _ Hloop) as Hinv.
  unfold Matrix_init.
  change (header :: pre ++ [] :: post) with ((header :: pre) ++ [] :: post).
  rewrite (init_loop_split float_of_str repr _ _ _ Hloop).
  cbn [enumerate foldM].
  replace (1 + len (header :: pre))%Z with (len pre + 2)%Z
    by (unfold len; cbn [List.length]; lia).
  rewrite (row_rejected float_of_str repr header pre st); auto.
  - unfold len. lia.
  - unfold len. cbn [List.length]. lia.
Qed.

End FurtherProperties.

(** * The further properties on concrete input *)

Section FurtherConcreteInput.

#[local] Existing Instance Runtime.str_strip.

Lemma X1_witness :
  Runtime.Matrix_init csv_2x2 = Ok matrix_2x2 /\
  exists header data grid,
    csv_2x2 = header :: data /\
    accepted Runtime.float_of_str Runtime.repr header data grid /\
    matrix_2x2 = built_matrix header data grid.
Proof.
  split; [reflexivity|].
  apply (proj1 (X1_constructor_accepts_exactly (str_strip := Runtime.str_strip)
                  Runtime.float_of_str
                  Runtime.repr csv_2x2 matrix_2x2)).
  reflexivity.
Defined.

Lemma X2_witness :
  Matrix_init_reader Runtime.float_of_str Runtime.repr
    [ ["Ignored"; " A"]; ["name"; " 1"] ]
    (Some (CsvError "field larger than field limit (131072)"))
  = Raise (CsvError "field larger than field limit (131072)") /\
  Matrix_init_reader Runtime.float_of_str Runtime.repr csv_too_many
    (Some (CsvError "field larger than field limit (131072)"))
  = Raise (ValueError (msg_row_fields 2 4 3)).
Proof.
  destruct (X2_constructor_exceptions (str_strip := Runtime.str_strip)
              Runtime.float_of_str Runtime.repr
              [ ["Ignored"; " A"]; ["name"; " 1"] ]) as [_ [_ Hreader]].
  split; [|reflexivity].
  apply (Hreader (mkLocals [("name", [1%float])] [("A", [1%float])]
                           (Some 1%Z))).
  reflexivity.
Defined.

Lemma X3_witness :
  map strip (slice_from_1 ["Ignored"; " A"; " B"; " A"]) = ["A"; "B"] ++ ["A"] /\
  Runtime.Matrix_init
    [ ["Ignored"; " A"; " B"; " A"]; ["name"; " 2"; " 3"; " hello"] ]
  = Raise (ValueError (msg_feature_repeated Runtime.repr "A")).
Proof.
  split; [reflexivity|].
  apply (X3_repeated_feature_name (str_strip := Runtime.str_strip)
           Runtime.float_of_str Runtime.repr
           ["Ignored"; " A"; " B"; " A"] [ ["name"; " 2"; " 3"; " hello"] ]
           ["A"; "B"] "A" []).
  - reflexivity.
  - repeat constructor; simpl; intuition discriminate.
  - simpl. auto.
Defined.

Lemma X4_witness :
  init_loop Runtime.float_of_str Runtime.repr
    [ ["Ignored"; " A"; " B"; " C"]; ["name"; " 1"; " 2"; " 3"] ]
  = Ok (mkLocals [("name", [1; 2; 3])]
                 [("A", [1]); ("B", [2]); ("C", [3])] (Some 3%Z))%float /\
  Runtime.Matrix_init
    [ ["Ignored"; " A"; " B"; " C"]; ["name"; " 1"; " 2"; " 3"];
      ["name"; " 4"; " 5"; " hello"] ]
  = Raise (ValueError (msg_taxa_repeated Runtime.repr "name")).
Proof.
  split; [reflexivity|].
  apply (X4_repeated_taxon_name (str_strip := Runtime.str_strip)
           Runtime.float_of_str Runtime.repr
           ["Ignored"; " A"; " B"; " C"] [ ["name"; " 1"; " 2"; " 3"] ]
           ["name"; " 4"; " 5"; " hello"] []
           (mkLocals [("name", [1; 2; 3])]
                     [("A", [1]); ("B", [2]); ("C", [3])] (Some 3%Z))%float).
  - reflexivity.
  - reflexivity.
  - simpl. auto.
Defined.

Lemma X5_witness :
  Runtime.float_of_str " hello" = None /\
  Runtime.Matrix_init
    [ ["Ignored"; " A"; " B"; " C"]; ["name"; " 2"; " 3"; " hello"] ]
  = Raise (ValueError (msg_float Runtime.repr " hello")).
Proof.
  split; [reflexivity|].
  apply (X5_unconvertible_cell (str_strip := Runtime.str_strip)
           Runtime.float_of_str Runtime.repr
           ["Ignored"; " A"; " B"; " C"] []
           ["name"; " 2"; " 3"; " hello"] []
           (mkLocals [] [("A", []); ("B", []); ("C", [])] (Some 3%Z))
           [" 2"; " 3"] " hello" [] [2; 3]%float).
  - reflexivity.
  - reflexivity.
  - simpl. tauto.
  - reflexivity.
  - reflexivity.
  - reflexivity.
Defined.

Lemma X7_witness :
  Runtime.Matrix_init csv_2x2 = Ok matrix_2x2 /\
  d_get (taxa matrix_2x2) (taxon_name ["name2"; " 5"; " 6"])
  = mapM (py_float Runtime.float_of_str Runtime.repr) [" 5"; " 6"] /\
  d_get (features matrix_2x2) (strip " B")
  = Ok (map (fun vs => nth 1 vs 0%float) (values (taxa matrix_2x2))).
Proof.
  split; [reflexivity|].
  destruct (X7_lookup_by_name (str_strip := Runtime.str_strip)
              Runtime.float_of_str Runtime.repr
              ["Ignored"; " A"; " B"]
              [ ["name1"; " 3"; " 4"]; ["name2"; " 5"; " 6"] ]
              matrix_2x2 eq_refl) as [Htaxa [Hfeat _]].
  split.
  - apply (Htaxa ["name2"; " 5"; " 6"]). simpl. auto.
  - apply (Hfeat 1 " B"). reflexivity.
Defined.

Lemma X8_witness :
  Runtime.Matrix_init csv_3x2 = Ok matrix_3x2 /\
  d_get (features matrix_3x2) "A" = Ok [3; 5; 7]%float /\
  Runtime.upperDiagonal matrix_3x2 "A" false
  = Ok (pairwise_differences
          (map (scaled_value Runtime.log10 false) [3; 5; 7]%float)).
Proof.
  split; [reflexivity|]. split; [reflexivity|].
  apply (X8_upperDiagonal_pairwise (str_strip := Runtime.str_strip)
           Runtime.float_of_str Runtime.repr
           Runtime.log10 csv_3x2 matrix_3x2 "A" false [3; 5; 7]%float);
    reflexivity.
Defined.

Lemma X9_witness :
  Runtime.Matrix_init csv_xml = Ok matrix_xml /\
  exists x,
    Runtime.allFeaturesAsXML matrix_xml "xxx" false = Ok x /\
    List.length (children x) = 2 * 2.
Proof.
  split; [reflexivity|].
  eexists. split; [reflexivity|].
  apply (X9_xml_shape (str_strip := Runtime.str_strip)
           Runtime.float_of_str Runtime.repr Runtime.log10
           Runtime.str csv_xml matrix_xml "xxx" false);
    reflexivity.
Defined.

Lemma X10_witness :
  Runtime.Matrix_init csv_logs = Ok matrix_logs /\
  exists dm row,
    Runtime.distanceMatrix matrix_logs "A" true = Ok dm /\
    nth_error dm 1 = Some row /\
    nth_error row 2 = Some 0%float.
Proof.
  split; [reflexivity|].
  apply (X10_logged_nonpositive_pair (str_strip := Runtime.str_strip)
           Runtime.float_of_str Runtime.repr
           Runtime.log10 csv_logs matrix_logs "A" [100; 0; -5; 10]%float
           1 2 0%float (-5)%float);
    reflexivity.
Defined.

Lemma X12_witness :
  init_loop Runtime.float_of_str Runtime.repr [ ["Ignored"; " A"] ]
  = Ok (mkLocals [] [("A", [])] (Some 1%Z)) /\
  Runtime.Matrix_init csv_blank_row
  = Raise (ValueError (msg_row_fields 2 (-1) 1)).
Proof.
  split; [reflexivity|].
  apply (X12_blank_row_rejected (str_strip := Runtime.str_strip)
           Runtime.float_of_str Runtime.repr
           ["Ignored"; " A"] [] [ ["name"; " 1"; " 2"] ]
           (mkLocals [] [("A", [])] (Some 1%Z))).
  reflexivity.
Defined.

End FurtherConcreteInput.
